(** * Wegweiser: route extraction helper and Sphinx directives

    A shallow embedding of [wegweiser/extract.py] (the helper process that
    walks a Pyramid application's route registry) and of
    [wegweiser/extension.py] (the Sphinx directives that run the helper and
    render what it prints), followed by the properties of both.

    Conventions of the embedding:
    - Python values that end up in the JSON document are [pyval]s; a Python
      dict with string keys is a [gmap string pyval].
    - A Python exception is a [Raise e] in the [result] monad.
    - Callables (views, wrappers, modules) are finite trees of attributes
      ([pyobj]); what the standard library's [inspect] module answers for an
      object is carried by the object.
    - Strings are sequences of characters with codes below 256.

    Limits of the embedding:
    - The values of view predicates are values of the JSON document; a
      predicate whose [val] is another kind of object, which [json.dump]
      would turn down, is not covered.
    - The argument parser is the one of the command lines that
      [get_routes] writes; other spellings of the options are not covered.
    - A dictionary is a finite map: the order of its items is the one of
      the map, not the order in which the keys were added.
    - A node made from a text always holds the text, the empty one too;
      the parsed content of a docstring is kept as the docstring with its
      file name and line number. *)

From Stdlib Require Import ZArith String Ascii List Sorted Permutation Lia.
From stdpp Require Import gmap strings list pretty.

Set Warnings "-register-all".
Local Open Scope string_scope.
Local Open Scope list_scope.
Local Open Scope Z_scope.

(* ===================================================================== *)
(** * Python values, exceptions *)
(* ===================================================================== *)

Inductive pyval :=
| VNone
| VStr (s : string)
| VInt (z : Z)
| VTuple (l : list pyval)
| VList (l : list pyval)
| VDict (d : gmap string pyval).

(** Python's truth value testing, as used by [if x:]. *)
Definition truthy (v : pyval) : bool :=
  match v with
  | VNone => false
  | VStr s => negb (String.eqb s "")
  | VInt z => negb (Z.eqb z 0)
  | VTuple l | VList l => match l with [] => false | _ => true end
  | VDict d => negb (bool_decide (d = ∅))
  end.

Inductive exn :=
| TypeError
| AttributeError
| KeyError (key : string)
| IndexError
| OSError
| ValueError
| DirectiveError (msg : string)
| SystemExit (code : Z).

Inductive result (A : Type) :=
| Ok (a : A)
| Raise (e : exn).
Arguments Ok {A} a.
Arguments Raise {A} e.

#[global] Instance result_ret : MRet result := fun _ a => Ok a.
#[global] Instance result_bind : MBind result := fun _ _ f m =>
  match m with
  | Ok a => f a
  | Raise e => Raise e
  end.

#[global] Instance result_fmap : FMap result := fun _ _ f m =>
  match m with
  | Ok a => Ok (f a)
  | Raise e => Raise e
  end.

Definition is_Ok {A} (r : result A) : bool :=
  match r with Ok _ => true | Raise _ => false end.

(* ===================================================================== *)
(** * Strings *)
(* ===================================================================== *)

Module str.

(** [s.startswith(prefix)] *)
Definition startswith (s prefix : string) : bool := String.prefix prefix s.

(** [s.endswith(suffix)] *)
Definition endswith (s suffix : string) : bool :=
  let n := String.length s in
  let k := String.length suffix in
  (k <=? n)%nat && String.eqb (String.substring (n - k) k s) suffix.

(** [s[n:]] for [0 <= n] *)
Fixpoint slice_from (n : nat) (s : string) : string :=
  match n, s with
  | O, _ => s
  | S n', String _ s' => slice_from n' s'
  | S _, EmptyString => EmptyString
  end.

(** [c.isspace()] for a character below 256. *)
Definition isspace (c : ascii) : bool :=
  let n := nat_of_ascii c in
  ((9 <=? n) && (n <=? 13) || (28 <=? n) && (n <=? 32)
   || (n =? 133) || (n =? 160))%nat.

Fixpoint lstrip (s : string) : string :=
  match s with
  | EmptyString => EmptyString
  | String c s' => if isspace c then lstrip s' else s
  end.

Fixpoint rev_string (s acc : string) : string :=
  match s with
  | EmptyString => acc
  | String c s' => rev_string s' (String c acc)
  end.

Definition rstrip (s : string) : string :=
  rev_string (lstrip (rev_string s EmptyString)) EmptyString.

Definition strip (s : string) : string := rstrip (lstrip s).

(** [c.lower()] for a character below 256: the letters A to Z and the
    upper case letters of Latin-1. *)
Definition lower_char (c : ascii) : ascii :=
  let n := nat_of_ascii c in
  if ((65 <=? n) && (n <=? 90)
      || (192 <=? n) && (n <=? 222) && negb (n =? 215))%nat
  then ascii_of_nat (n + 32) else c.

Fixpoint lower (s : string) : string :=
  match s with
  | EmptyString => EmptyString
  | String c s' => String (lower_char c) (lower s')
  end.

(** The one-character string holding a double quote. *)
Definition dquote : string := String (ascii_of_nat 34) EmptyString.

(** [repr(s)] for a string without quotes, backslashes or control
    characters. *)
Definition repr (s : string) : string := "'" +:+ s +:+ "'".

End str.

(* ===================================================================== *)
(** * Objects and what [inspect] reports about them *)
(* ===================================================================== *)

(** A view predicate: [type(predicate).__name__] and the attribute [val]
    ([None] when the predicate has no such attribute). *)
Record predicate := Predicate {
  predicate_type_name : string;
  predicate_val : option pyval }.

(** A renderer helper, of which only [renderer.name] is read. *)
Record renderer_helper := RendererHelper { renderer_name : string }.

Record code := Code {
  co_name : string;
  co_freevars : list string }.

(** A closure cell; [cell_contents] is a renderer or [None]. *)
Record cell := Cell { cell_contents : option renderer_helper }.

(** A callable or a module.  An attribute that the object does not have is
    [None].  The last four fields are the answers of [inspect.getsourcefile]
    (which raises [TypeError] for built-in objects), [inspect.getsourcelines]
    (which raises [OSError] when the source cannot be retrieved),
    [inspect.getdoc] and the [__name__] of [inspect.getmodule]. *)
Inductive pyobj := PyObj {
  __wraps__ : option pyobj;
  __wrapped__ : option pyobj;
  __code__ : option code;
  __closure__ : option (list cell);
  __predicates__ : option (list predicate);
  obj_sourcefile : result (option string);
  obj_sourcelines : result (list string * Z);
  obj_doc : option string;
  obj_module : option string }.

(** The functions of [inspect] take any object, [None] included (a view
    that was not found). *)
Module inspect.

Definition getsourcefile (o : option pyobj) : result (option string) :=
  match o with
  | None => Raise TypeError
  | Some o => obj_sourcefile o
  end.

Definition getsourcelines (o : option pyobj) : result (list string * Z) :=
  match o with
  | None => Raise TypeError
  | Some o => obj_sourcelines o
  end.

Definition getdoc (o : option pyobj) : option string :=
  match o with
  | None => None
  | Some o => obj_doc o
  end.

(** [inspect.getmodule(o).__name__]: [getmodule] returns [None] when no
    module is found, and [None] has no [__name__]. *)
Definition getmodule___name__ (o : option pyobj) : result string :=
  match o ≫= obj_module with
  | None => Raise AttributeError
  | Some name => Ok name
  end.

End inspect.

(* ===================================================================== *)
(** * The Pyramid registry *)
(* ===================================================================== *)

Definition Iface := string.

(** A request built by the request factory from an environ. *)
Record Request := mkRequest { environ : list (string * string) }.

(** A resource (root or context); [providedBy] gives its interface. *)
Record Resource := mkResource { providedBy : Iface }.

Definition RootFactory := Request → Resource.

(** A traverser answers with the context and the view name. *)
Definition Traverser := Request → Resource * string.

Record Route := mkRoute {
  route_name : string;
  route_pattern : string;
  route_factory : option RootFactory }.

(** The utilities and adapters the helper queries.  [None] stands for a
    utility that is not registered (the query's default is then used). *)
Record Registry := mkRegistry {
  IRoutesMapper : option (list (string * Route));
  IRootFactory : option RootFactory;
  IRouteRequest : string → option Iface;
  IRequestFactory : option (list (string * string) → Request);
  ITraverser : Resource → option Traverser;
  IView : Iface → Iface → string → option pyobj }.

(** The environment [paster.bootstrap] returns, with the interpreter's
    [sys.modules] after the application was loaded. *)
Record Env := mkEnv {
  registry : Registry;
  sys_modules : gmap string pyobj }.

Module traversal.
Definition DefaultRootFactory : RootFactory :=
  fun _ => mkResource "pyramid.interfaces.IDefaultRootFactory".
(** Traversal of a request with an empty environ stops at the root. *)
Definition ResourceTreeTraverser (root : Resource) : Traverser :=
  fun _ => (root, "").
End traversal.

Module interfaces.
Definition IRequest : Iface := "pyramid.interfaces.IRequest".
End interfaces.

(* ===================================================================== *)
(** * extract.py *)
(* ===================================================================== *)

(** The standard output of a process, as the JSON documents written to it. *)
Definition stdout := list pyval.

Module json.

(** The value that [json.loads] reads back from what [json.dump] wrote:
    tuples have become lists. *)
Fixpoint value (v : pyval) : pyval :=
  match v with
  | VTuple l => VList (value <$> l)
  | VList l => VList (value <$> l)
  | VDict d => VDict (value <$> d)
  | VNone | VStr _ | VInt _ => v
  end.

(** [json.dump(v, sys.stdout)] *)
Definition dump (v : pyval) (out : stdout) : stdout := out ++ [value v].

(** [json.loads] of a whole output: exactly one document is accepted; no
    document, or data after the first one, is a [ValueError]. *)
Definition loads (out : stdout) : result pyval :=
  match out with
  | [v] => Ok v
  | _ => Raise ValueError
  end.

End json.

Module operator.
(** [operator.itemgetter(key)(d)], that is [d[key]]. *)
Definition itemgetter (key : string) (d : gmap string pyval) : result pyval :=
  match d !! key with
  | Some v => Ok v
  | None => Raise (KeyError key)
  end.
End operator.

(** A value used where the code needs a [str] (a method of [str] is called
    on it, or it is compared with other strings). *)
Definition as_str (v : pyval) : result string :=
  match v with
  | VStr s => Ok s
  | VNone | VInt _ | VTuple _ | VList _ | VDict _ => Raise AttributeError
  end.

(** [sorted(l, key=...)] on keys that are strings: the keys are computed
    first, then the items are sorted by them.  Python's sort is stable and
    compares strings character by character, so its result is the one of
    this insertion sort. *)
Fixpoint sorted_insert {A} (kx : string) (x : A) (l : list (string * A))
  : list (string * A) :=
  match l with
  | [] => [(kx, x)]
  | (ky, y) :: l' =>
      if String.leb kx ky then (kx, x) :: (ky, y) :: l'
      else (ky, y) :: sorted_insert kx x l'
  end.

Fixpoint sorted_pairs {A} (l : list (string * A)) : list (string * A) :=
  match l with
  | [] => []
  | (kx, x) :: l' => sorted_insert kx x (sorted_pairs l')
  end.

Fixpoint decorate {A} (key : A → result string) (l : list A)
  : result (list (string * A)) :=
  match l with
  | [] => Ok []
  | x :: l' => k ← key x; r ← decorate key l'; Ok ((k, x) :: r)
  end.

Definition sorted {A} (l : list A) (key : A → result string) : result (list A) :=
  d ← decorate key l; Ok (snd <$> sorted_pairs d).

Module extract.

Definition find_view (registry : Registry) (route : Route) : option pyobj :=
  let root_factory :=
    default traversal.DefaultRootFactory (IRootFactory registry) in
  let request_iface :=
    default interfaces.IRequest (IRouteRequest registry (route_name route)) in
  let root_factory := default root_factory (route_factory route) in
  let request_factory := default mkRequest (IRequestFactory registry) in
  let request := request_factory [] in
  let root := root_factory request in
  (* Find context *)
  let traverser :=
    default (traversal.ResourceTreeTraverser root) (ITraverser registry root) in
  let tdict := traverser request in
  let context := fst tdict in
  let view_name := snd tdict in
  (* Find view callable *)
  let context_iface := providedBy context in
  IView registry request_iface context_iface view_name.

(** The [for] loop of [get_view_predicates], with the list it appends to. *)
Fixpoint get_view_predicates_loop (ps : list predicate) (predicates : list pyval)
  : list pyval :=
  match ps with
  | [] => predicates
  | p :: rest =>
      match predicate_val p with
      | Some v =>
          get_view_predicates_loop rest
            (predicates ++ [VTuple [VStr (predicate_type_name p); v]])
      | None => get_view_predicates_loop rest predicates
      end
  end.

Definition get_view_predicates (view : option pyobj) : list pyval :=
  get_view_predicates_loop (default [] (view ≫= __predicates__)) [].

(** The [while] loop of [get_view_renderer]. *)
Fixpoint get_view_renderer_loop (view : pyobj) : pyobj :=
  match __wraps__ view with
  | Some w =>
      if match __code__ view with
         | None => true
         | Some c => negb (String.eqb (co_name c) "rendered_view")
         end
      then get_view_renderer_loop w
      else view
  | None => view
  end.

(** The [for] loop of [get_view_renderer] over [zip(co_freevars, closure)]. *)
Fixpoint get_view_renderer_cells (l : list (string * cell))
  : option renderer_helper :=
  match l with
  | [] => None
  | (name, c) :: rest =>
      if String.eqb name "view_renderer" then cell_contents c
      else get_view_renderer_cells rest
  end.

Definition get_view_renderer (view : option pyobj)
  : result (option renderer_helper) :=
  match view with
  | None => Ok None
  | Some view =>
      let view := get_view_renderer_loop view in
      match __closure__ view with
      | None => Ok None
      | Some closure =>
          match __code__ view with
          | None => Raise AttributeError
          | Some c =>
              Ok (get_view_renderer_cells (zip (co_freevars c) closure))
          end
      end
  end.

Fixpoint _get_unwrapped_obj (func : pyobj) : pyobj :=
  match __wraps__ func with
  | Some w => _get_unwrapped_obj w
  | None =>
      match __wrapped__ func with
      | Some w => _get_unwrapped_obj w
      | None => func
      end
  end.

Definition _get_unwrapped (func : option pyobj) : option pyobj :=
  _get_unwrapped_obj <$> func.

(** The test of the loop: the line, without its leading white space,
    starts with a double or a single quote character. *)
Definition starts_string_literal (line : string) : bool :=
  let l := str.lstrip line in
  str.startswith l str.dquote || str.startswith l "'".

(** The [for ... else] loop of [get_docstring] over
    [enumerate(lines, start_offset)]: the number of the first line that
    starts a string literal, or [None] when the loop is not left by
    [break]. *)
Fixpoint get_docstring_loop (lines : list string) (lineno : Z) : option Z :=
  match lines with
  | [] => None
  | line :: rest =>
      if starts_string_literal line then Some lineno
      else get_docstring_loop rest (lineno + 1)
  end.

Definition filename_value (filename : option string) : pyval :=
  match filename with
  | None => VNone
  | Some f => VStr f
  end.

Definition get_docstring (func : option pyobj) : result pyval :=
  let func := _get_unwrapped func in
  match inspect.getsourcefile func with
  | Raise TypeError => Ok VNone
  | Raise e => Raise e
  | Ok filename =>
      '(lines, start_offset) ← inspect.getsourcelines func;
      let start_offset := Z.max start_offset 1 in
      match get_docstring_loop lines start_offset with
      | None => Ok VNone
      | Some lineno =>
          match inspect.getdoc func with
          | Some docstring =>
              Ok (VTuple [filename_value filename; VInt lineno; VStr docstring])
          | None => Ok VNone
          end
      end
  end.

(** The body of the [for] loop of [collect]: the dictionary of one route. *)
Definition collect_route (registry : Registry) (route : Route)
  : result (gmap string pyval) :=
  let view := find_view registry route in
  renderer ← get_view_renderer view;
  let predicates := get_view_predicates view in
  let pattern := route_pattern route in
  let pattern :=
    if negb (str.startswith pattern "/") then "/" +:+ pattern else pattern in
  module ← inspect.getmodule___name__ view;
  doc ← get_docstring view;
  let value : gmap string pyval :=
    <["name" := VStr (route_name route)]>
    (<["pattern" := VStr pattern]>
    (<["predicates" := VList predicates]>
    (<["module" := VStr module]>
    (<["doc" := doc]>
    (<["renderer" := VNone]> ∅))))) in
  let value :=
    match renderer with
    | Some r => <["renderer" := VStr (renderer_name r)]> value
    | None => value
    end in
  Ok value.

Fixpoint collect_loop (registry : Registry) (items : list (string * Route))
  (routes : list (gmap string pyval)) : result (list (gmap string pyval)) :=
  match items with
  | [] => Ok routes
  | (_, route) :: rest =>
      value ← collect_route registry route;
      collect_loop registry rest (routes ++ [value])
  end.

(** The root factory, the request, the root and the traverser that
    [collect] computes before its loop are not used by it; the mapper is
    first used at the loop, where a registry without one fails. *)
Definition collect (env : Env) : result (list (gmap string pyval)) :=
  match IRoutesMapper (registry env) with
  | None => Raise AttributeError
  | Some mapper_routes =>
      routes ← collect_loop (registry env) mapper_routes [];
      sorted routes (fun r => operator.itemgetter "pattern" r ≫= as_str)
  end.

Fixpoint group_by_modules_loop (modules : gmap string pyobj)
  (routes : list (gmap string pyval)) (grouped : gmap string pyval)
  : result (gmap string pyval) :=
  match routes with
  | [] => Ok grouped
  | route :: rest =>
      name ← operator.itemgetter "module" route ≫= as_str;
      grouped ←
        match grouped !! name with
        | Some _ => Ok grouped
        | None =>
            match modules !! name with
            | None => Raise (KeyError name)
            | Some module =>
                doc ← get_docstring (Some module);
                Ok (<[name := VDict (<["doc" := doc]>
                                    (<["routes" := VList []]> ∅))]> grouped)
            end
        end;
      (* grouped[name]["routes"].append(route) *)
      match grouped !! name with
      | Some (VDict g) =>
          match g !! "routes" with
          | Some (VList rs) =>
              group_by_modules_loop modules rest
                (<[name := VDict (<["routes" := VList (rs ++ [VDict route])]> g)]>
                   grouped)
          | Some _ => Raise AttributeError
          | None => Raise (KeyError "routes")
          end
      | Some _ => Raise TypeError
      | None => Raise (KeyError name)
      end
  end.

Definition group_by_modules (modules : gmap string pyobj)
  (routes : list (gmap string pyval)) : result (gmap string pyval) :=
  group_by_modules_loop modules routes ∅.

Definition GROUP_FUNCS
  : gmap string (gmap string pyobj → list (gmap string pyval)
                 → result (gmap string pyval)) :=
  {[ "module" := group_by_modules ]}.

(** The namespace [parser.parse_args] returns. *)
Record Namespace := mkNamespace {
  config : string;
  prefix : option string;
  group : option string }.

(** [argparse] for the parser that [main] builds (a positional [config],
    [--prefix], and [--group] with the keys of [GROUP_FUNCS] as choices),
    on the command lines [get_routes] writes: an option is spelled
    [--name=value] and any other argument that does not start with a dash
    is positional.  A rejected command line makes [argparse] exit with
    status 2 after a message on the standard error stream.  Other
    spellings of an option are not covered and count as rejected. *)
Fixpoint parse_args_loop (args : list string)
  (config prefix group : option string) : result Namespace :=
  match args with
  | [] =>
      match config with
      | Some c => Ok (mkNamespace c prefix group)
      | None => Raise (SystemExit 2)
      end
  | arg :: rest =>
      if str.startswith arg "--prefix=" then
        parse_args_loop rest config (Some (str.slice_from 9 arg)) group
      else if str.startswith arg "--group=" then
        let value := str.slice_from 8 arg in
        match GROUP_FUNCS !! value with
        | Some _ => parse_args_loop rest config prefix (Some value)
        | None => Raise (SystemExit 2)
        end
      else if str.startswith arg "-" then Raise (SystemExit 2)
      else
        match config with
        | None => parse_args_loop rest (Some arg) prefix group
        | Some _ => Raise (SystemExit 2)
        end
  end.

Definition parse_args (args : list string) : result Namespace :=
  parse_args_loop args None None None.

(** The list comprehension of [main] that keeps the routes whose pattern
    starts with the prefix. *)
Fixpoint main_filter (prefix : string) (routes : list (gmap string pyval))
  : result (list (gmap string pyval)) :=
  match routes with
  | [] => Ok []
  | r :: rest =>
      pattern ← operator.itemgetter "pattern" r ≫= as_str;
      rest' ← main_filter prefix rest;
      Ok (if str.startswith pattern prefix then r :: rest' else rest')
  end.

(** [main(args)], with [paster.bootstrap] as [bootstrap].  The first
    component is what was written to the standard output, the second the
    return value or the exception that ended [main]. *)
Definition main (bootstrap : string → result Env) (args : list string)
  : stdout * result Z :=
  let routes : result pyval :=
    options ← parse_args args;
    group_func ←
      match group options with
      | Some g =>
          if negb (String.eqb g "") then
            match GROUP_FUNCS !! g with
            | Some f => Ok (Some f)
            | None => Raise (KeyError g)
            end
          else Ok None
      | None => Ok None
      end;
    env ← bootstrap (config options);
    routes ← collect env;
    routes ←
      match prefix options with
      | Some p =>
          if negb (String.eqb p "") then main_filter p routes else Ok routes
      | None => Ok routes
      end;
    match group_func with
    | Some f => VDict <$> f (sys_modules env) routes
    | None => Ok (VList (VDict <$> routes))
    end in
  match routes with
  | Ok routes => (json.dump routes [], Ok 0)
  | Raise e => ([], Raise e)
  end.

End extract.

(* ===================================================================== *)
(** * extension.py *)
(* ===================================================================== *)

(** Subscription [v[key]] with a string key. *)
Definition getitem (v : pyval) (key : string) : result pyval :=
  match v with
  | VDict d => operator.itemgetter key d
  | VNone | VStr _ | VInt _ | VTuple _ | VList _ => Raise TypeError
  end.

(** The comparison [v == s] with a string. *)
Definition eq_str (v : pyval) (s : string) : bool :=
  match v with
  | VStr s' => String.eqb s' s
  | VNone | VInt _ | VTuple _ | VList _ | VDict _ => false
  end.

(** Subscription [v[i]] with a natural number. *)
Definition getindex (v : pyval) (i : nat) : result pyval :=
  match v with
  | VList l | VTuple l =>
      match l !! i with
      | Some x => Ok x
      | None => Raise IndexError
      end
  | VStr s =>
      match String.get i s with
      | Some c => Ok (VStr (String c EmptyString))
      | None => Raise IndexError
      end
  | VDict _ => Raise (KeyError (pretty (Z.of_nat i)))
  | VNone | VInt _ => Raise TypeError
  end.

(** The items a [for] loop over the value visits. *)
Definition iter (v : pyval) : result (list pyval) :=
  match v with
  | VList l | VTuple l => Ok l
  | VDict d => Ok ((λ kv, VStr (fst kv)) <$> map_to_list d)
  | VStr s => Ok ((λ c, VStr (String c EmptyString)) <$> list_ascii_of_string s)
  | VNone | VInt _ => Raise TypeError
  end.

(** Document nodes of docutils.  An element built with [text=t] has the
    text node [Text t] as its child.  [Docstring] stands for the nodes that
    parsing a docstring as reStructuredText adds. *)
Inductive node_kind := section | title | paragraph | strong | inline | literal.

Inductive node :=
| Element (kind : node_kind) (ids : list string) (children : list node)
| Text (data : pyval)
| Docstring (filename start_offset : pyval) (docstring : string).

(** [node += other], where [other] is a node, a list of nodes or [None]. *)
Definition iadd (n : node) (other : list node) : node :=
  match n with
  | Element kind ids children => Element kind ids (children ++ other)
  | Text _ | Docstring _ _ _ => n
  end.

(** A member of the set of source file names kept per document. *)
Definition hashable := option (string + Z).

Definition as_hashable (v : pyval) : result hashable :=
  match v with
  | VNone => Ok None
  | VStr s => Ok (Some (inl s))
  | VInt z => Ok (Some (inr z))
  | VList _ | VDict _ | VTuple _ => Raise TypeError
  end.

(** The part of the Sphinx build environment the directives use:
    [env.pyramid_routes] ([None] before [_prepare_env] has created it),
    [env.docname], the counters behind [env.new_serialno] and
    [env.app.config.wegweiser]. *)
Record BuildEnv := mkBuildEnv {
  pyramid_routes : option (gmap string (gset hashable));
  docname : string;
  serialno : gmap string Z;
  wegweiser : gmap string string }.

(** What the interpreter and the operating system provide to [get_routes]:
    [sys.executable], the directory of the module's [__file__],
    [os.path.expanduser], and the run of a command line to completion, which
    gives its standard output. *)
Record System := mkSystem {
  sys_executable : string;
  __file__dirname : string;
  expanduser : string → string;
  Popen_communicate : list string → stdout }.

(** A directive instance: [self.options] and [self.arguments]. *)
Record Directive := mkDirective {
  options : gmap string string;
  arguments : list string }.

(** Directive code reads and updates the build environment and may raise. *)
Definition directive (A : Type) : Type := BuildEnv → result (A * BuildEnv).

#[global] Instance directive_ret : MRet directive := fun _ a env => Ok (a, env).
#[global] Instance directive_bind : MBind directive := fun _ _ f m env =>
  match m env with
  | Ok (a, env') => f a env'
  | Raise e => Raise e
  end.

Definition lift {A} (r : result A) : directive A := fun env =>
  match r with
  | Ok a => Ok (a, env)
  | Raise e => Raise e
  end.

Definition get_env : directive BuildEnv := fun env => Ok (env, env).
Definition put_env (env : BuildEnv) : directive unit := fun _ => Ok (tt, env).

Module os_path.
(** [os.path.join(dir, file)] on a POSIX system. *)
Definition join (dir file : string) : string :=
  if str.startswith file "/" then file
  else if String.eqb dir "" || str.endswith dir "/" then dir +:+ file
  else dir +:+ "/" +:+ file.
End os_path.

Module directives.

(** [directives.unchanged]: no argument is the empty string. *)
Definition unchanged (argument : option string) : result string :=
  Ok (default "" argument).

(** [directives.choice(argument, values)] *)
Definition choice (values : list string) (argument : option string)
  : result string :=
  match argument with
  | None => Raise ValueError
  | Some argument =>
      let value := str.strip (str.lower argument) in
      if bool_decide (value ∈ values) then Ok value else Raise ValueError
  end.

End directives.

Module extension.

Section WithSystem.

Context (sys : System).

(** Truth value of an argument that is a string or [None]. *)
Definition given (s : option string) : bool :=
  match s with
  | None => false
  | Some s => negb (String.eqb s "")
  end.

Definition get_routes (config : string) (prefix group_by : option string)
  : result pyval :=
  let python := sys_executable sys in
  let script := os_path.join (__file__dirname sys) "extract.py" in
  let config := expanduser sys config in
  let args := [python; script; config] in
  let args :=
    if given group_by then args ++ ["--group=" +:+ default "" group_by]
    else args in
  let args :=
    if given prefix then args ++ ["--prefix=" +:+ default "" prefix]
    else args in
  let out := Popen_communicate sys args in
  json.loads out.

Definition _prepare_env : directive unit :=
  env ← get_env;
  match pyramid_routes env with
  | None =>
      (* Mapping docname => list of view source files *)
      put_env (mkBuildEnv (Some ∅) (docname env) (serialno env) (wegweiser env))
  | Some _ => mret tt
  end.

Definition _get_routes (prefix group_by : option string) : directive pyval :=
  env ← get_env;
  match wegweiser env !! "app_config" with
  | None => lift (Raise (KeyError "app_config"))
  | Some app_config => lift (get_routes app_config prefix group_by)
  end.

(** [env.pyramid_routes[env.docname].add(doc[0])] on a
    [defaultdict(set)]: the set of the document is looked up (and is empty
    when the document has none yet), then the file name is read and
    added. *)
Definition pyramid_routes_add (doc : pyval) : directive unit :=
  env ← get_env;
  match pyramid_routes env with
  | None => lift (Raise AttributeError)
  | Some routes =>
      let files := default ∅ (routes !! docname env) in
      filename ← lift (getindex doc 0);
      h ← lift (as_hashable filename);
      put_env (mkBuildEnv (Some (<[docname env := {[h]} ∪ files]> routes))
                 (docname env) (serialno env) (wegweiser env))
  end.

(** [env.new_serialno(category)] *)
Definition new_serialno (category : string) : directive Z :=
  env ← get_env;
  let key := category +:+ "serialno" in
  let cur := default 0 (serialno env !! key) in
  _ ← put_env (mkBuildEnv (pyramid_routes env) (docname env)
                 (<[key := cur + 1]> (serialno env)) (wegweiser env));
  mret cur.

Definition _strip_prefix (self : Directive) (pattern : pyval) : result pyval :=
  let prefix := options self !! "prefix" in
  match prefix with
  | Some p =>
      if negb (String.eqb p "") then
        pattern ← as_str pattern;
        if str.startswith pattern p then
          let n := (String.length p - (if str.endswith p "/" then 1 else 0))%nat in
          Ok (VStr (str.slice_from n pattern))
        else Ok (VStr pattern)
      else Ok pattern
  | None => Ok pattern
  end.

(** The [for] loop of [_get_request_methods] over [route["predicates"]]. *)
Fixpoint _get_request_methods_loop (predicates : list pyval) : result pyval :=
  match predicates with
  | [] => Ok (VList [])
  | item :: rest =>
      item ← iter item;
      match item with
      | [name; value] =>
          if eq_str name "RequestMethodPredicate" then Ok value
          else _get_request_methods_loop rest
      | _ => Raise ValueError
      end
  end.

Definition _get_request_methods (route : pyval) : result pyval :=
  predicates ← getitem route "predicates";
  predicates ← iter predicates;
  _get_request_methods_loop predicates.

(** The [for] loop of [_render_request_methods] over
    [enumerate(request_methods)]. *)
Fixpoint _render_request_methods_loop (i : nat) (methods : list pyval)
  (n : node) : node :=
  match methods with
  | [] => n
  | method :: rest =>
      let n :=
        if (1 <=? i)%nat then iadd n [Element inline [] [Text (VStr ", ")]]
        else n in
      let n := iadd n [Element literal [] [Text method]] in
      _render_request_methods_loop (S i) rest n
  end.

Definition _render_request_methods (route : pyval) : result (list node) :=
  request_methods ← _get_request_methods route;
  if truthy request_methods then
    let n := Element paragraph [] [] in
    let n := iadd n [Element strong [] [Text (VStr "Request methods: ")]] in
    methods ← iter request_methods;
    let n := _render_request_methods_loop 0 methods n in
    let n := iadd n [Text (VStr (String (ascii_of_nat 10) EmptyString))] in
    Ok [n]
  else Ok [].

(** The result is a node or [None]; as the right operand of [+=] both are
    the list of nodes to add. *)
Definition _render_response (route : pyval) : result (list node) :=
  renderer ← getitem route "renderer";
  if truthy renderer then
    let n := Element paragraph [] [] in
    let n := iadd n [Element strong [] [Text (VStr "Response: ")]] in
    let n := iadd n [Element inline [] [Text renderer]] in
    Ok [n]
  else Ok [].

(** [_render_docstring(node, *doc)]: the call needs exactly three
    arguments after the node, the docstring is prepared as a string and its
    lines are numbered from an integer; the parsed content is added to the
    node. *)
Definition _render_docstring (n : node) (doc : pyval) : result node :=
  args ← iter doc;
  match args with
  | [filename; start_offset; docstring] =>
      docstring ← as_str docstring;
      match start_offset with
      | VInt _ => Ok (iadd n [Docstring filename start_offset docstring])
      | VNone | VStr _ | VTuple _ | VList _ | VDict _ => Raise TypeError
      end
  | _ => Raise TypeError
  end.

Definition _render_route (self : Directive) (route : pyval) : directive node :=
  doc ← lift (getitem route "doc");
  _ ← (if truthy doc then pyramid_routes_add doc else mret tt);
  serial ← new_serialno "route";
  let route_id := "route-" +:+ pretty serial in
  let route_node := Element section [route_id] [] in
  pattern ← lift (getitem route "pattern");
  text ← lift (_strip_prefix self pattern);
  let route_node := iadd route_node [Element title [] [Text text]] in
  methods ← lift (_render_request_methods route);
  let route_node := iadd route_node methods in
  response ← lift (_render_response route);
  let route_node := iadd route_node response in
  doc ← lift (getitem route "doc");
  match doc with
  | VNone => mret route_node
  | _ => lift (_render_docstring route_node doc)
  end.

(** [[self._render_route(route) for route in routes]] *)
Fixpoint _render_routes (self : Directive) (routes : list pyval)
  : directive (list node) :=
  match routes with
  | [] => mret []
  | route :: rest =>
      n ← _render_route self route;
      ns ← _render_routes self rest;
      mret (n :: ns)
  end.

Definition _default_group_renderer (self : Directive) (routes : pyval)
  : directive (list node) :=
  routes ← lift (iter routes);
  _render_routes self routes.

(** The inner [for] loop of [_module_group_renderer]. *)
Fixpoint _module_group_renderer_routes (self : Directive)
  (routes : list pyval) (n : node) : directive node :=
  match routes with
  | [] => mret n
  | route :: rest =>
      r ← _render_route self route;
      _module_group_renderer_routes self rest (iadd n [r])
  end.

(** The outer [for] loop of [_module_group_renderer] over
    [modules.items()]. *)
Fixpoint _module_group_renderer_loop (self : Directive)
  (items : list (string * pyval)) (result : list node) : directive (list node) :=
  match items with
  | [] => mret result
  | (name, module) :: rest =>
      let node_id := "module-" +:+ name in
      let n := Element section [node_id] [] in
      let n := iadd n [Element title [] [Text (VStr name)]] in
      doc ← lift (getitem module "doc");
      n ← (if truthy doc then
             n ← lift (_render_docstring n doc);
             _ ← pyramid_routes_add doc;
             mret n
           else mret n);
      routes ← lift (getitem module "routes" ≫= iter);
      n ← _module_group_renderer_routes self routes n;
      _module_group_renderer_loop self rest (result ++ [n])
  end.

Definition _module_group_renderer (self : Directive) (modules : pyval)
  : directive (list node) :=
  match modules with
  | VDict d => _module_group_renderer_loop self (map_to_list d) []
  | VNone | VStr _ | VInt _ | VTuple _ | VList _ => lift (Raise AttributeError)
  end.

(** The registry filled by the [@group_renderer(name)] decorators. *)
Definition group_renderer
  : gmap string (Directive → pyval → directive (list node)) :=
  <["module" := _module_group_renderer]>
    (<["" := _default_group_renderer]> ∅).

(** [PyramidRoutesDirective.run] *)
Definition run (self : Directive) : directive (list node) :=
  _ ← _prepare_env;
  let group_by := default "" (options self !! "groupby") in
  let prefix := options self !! "prefix" in
  routes ← _get_routes prefix (Some group_by);
  match group_renderer !! group_by with
  | None => lift (Raise (DirectiveError ("Invalid group: " +:+ str.repr group_by)))
  | Some renderer => renderer self routes
  end.

End WithSystem.

(** [PyramidRoutesDirective.option_spec] *)
Definition option_spec : gmap string (option string → result string) :=
  <["prefix" := directives.unchanged]>
    (<["groupby" := directives.choice ["module"]]> ∅).

(** How docutils turns the option lines of a directive into [self.options]:
    every option must be in [option_spec], occur once, and be accepted by
    its conversion function. *)
Fixpoint assemble_option_dict (option_list : list (string * option string))
  (options : gmap string string) : result (gmap string string) :=
  match option_list with
  | [] => Ok options
  | (name, value) :: rest =>
      match option_spec !! name with
      | None => Raise (KeyError name)
      | Some convertor =>
          match options !! name with
          | Some _ => Raise ValueError
          | None =>
              v ← convertor value;
              assemble_option_dict rest (<[name := v]> options)
          end
      end
  end.

(** What docutils does with a [pyramidroutes] directive: when the options
    are not accepted it reports an error in the directive and does not call
    [run]. *)
Inductive directive_outcome :=
| OptionError (e : exn)
| Ran (r : result (list node * BuildEnv)).

Definition run_directive (sys : System) (option_list : list (string * option string))
  (arguments : list string) (env : BuildEnv) : directive_outcome :=
  match assemble_option_dict option_list ∅ with
  | Raise e => OptionError e
  | Ok options => Ran (run sys (mkDirective options arguments) env)
  end.

(** The helper process that [get_routes] starts is [extract.py], run with
    the arguments after the script's path. *)
Definition extract_process (bootstrap : string → result Env) (args : list string)
  : stdout :=
  fst (extract.main bootstrap (drop 2 args)).

(** The dictionary [dict((r["name"], r) for r in routes)] of
    [PyramidRouteDirective.run]: a later route replaces an earlier one of
    the same name. *)
Fixpoint routes_by_name (rs : list pyval) (routes : gmap hashable pyval)
  : result (gmap hashable pyval) :=
  match rs with
  | [] => Ok routes
  | r :: rest =>
      name ← getitem r "name";
      h ← as_hashable name;
      routes_by_name rest (<[h := r]> routes)
  end.

(** [PyramidRouteDirective.run] *)
Definition PyramidRouteDirective_run (sys : System) (self : Directive)
  : directive (list node) :=
  _ ← _prepare_env;
  routes ← _get_routes sys None None;
  rs ← lift (iter routes);
  routes ← lift (routes_by_name rs ∅);
  match arguments self with
  | [] => lift (Raise IndexError)
  | name :: _ =>
      match routes !! Some (inl name) with
      | None => lift (Raise (KeyError name))
      | Some route =>
          n ← _render_route self route;
          mret [n]
      end
  end.

Section Outdated.

(** Time stamps are compared only; [time_gt a b] is [a > b].  The file
    system answers [os.path.getmtime]. *)
Context {time : Type} (time_gt : time → time → bool).
Context (getmtime : hashable → result time).

(** The inner [for] loop of [get_outdated_documents] over the source files
    of a document: whether it is left by [break]. *)
Fixpoint get_outdated_documents_files (all_docs : gmap string time)
  (document : string) (source_files : list hashable) : result bool :=
  match source_files with
  | [] => Ok false
  | filename :: rest =>
      mtime ← getmtime filename;
      match all_docs !! document with
      | None => Raise (KeyError document)
      | Some t =>
          if time_gt mtime t then Ok true
          else get_outdated_documents_files all_docs document rest
      end
  end.

(** The outer [for] loop over [env.pyramid_routes.items()]. *)
Fixpoint get_outdated_documents_loop (all_docs : gmap string time)
  (items : list (string * gset hashable)) (changed : list string)
  : result (list string) :=
  match items with
  | [] => Ok changed
  | (document, source_files) :: rest =>
      outdated ← get_outdated_documents_files all_docs document
                   (elements source_files);
      get_outdated_documents_loop all_docs rest
        (if outdated : bool then changed ++ [document] else changed)
  end.

(** [get_outdated_documents(app, env, added, changed, removed)], with
    [env.all_docs] as [all_docs]. *)
Definition get_outdated_documents (env : BuildEnv) (all_docs : gmap string time)
  (added changed removed : list string) : result (list string) :=
  let changed : list string := [] in
  match pyramid_routes env with
  | Some routes => get_outdated_documents_loop all_docs (map_to_list routes) changed
  | None => Ok changed
  end.

End Outdated.

(** [purge_pyramid_routes(app, env, docname)] *)
Definition purge_pyramid_routes (env : BuildEnv) (docname' : string) : BuildEnv :=
  match pyramid_routes env with
  | Some routes =>
      match routes !! docname' with
      | Some _ =>
          mkBuildEnv (Some (delete docname' routes)) (docname env)
            (serialno env) (wegweiser env)
      | None => env
      end
  | None => env
  end.

End extension.

(* ===================================================================== *)
(** * Notions used in the statements *)
(* ===================================================================== *)

(** The keys of a route dictionary. *)
Definition route_keys : gset string :=
  {[ "name"; "pattern"; "predicates"; "module"; "doc"; "renderer" ]}.

(** The pattern that [collect] stores for a route pattern. *)
Definition stored_pattern (pattern : string) : string :=
  if str.startswith pattern "/" then pattern else "/" +:+ pattern.

(** Two route dictionaries are in ascending order of their patterns. *)
Definition pattern_le (r1 r2 : gmap string pyval) : Prop :=
  ∃ p1 p2, r1 !! "pattern" = Some (VStr p1) ∧ r2 !! "pattern" = Some (VStr p2)
           ∧ String.leb p1 p2 = true.

(** Two items decorated with their keys are in ascending order. *)
Definition key_le {A} (p q : string * A) : Prop :=
  String.leb (fst p) (fst q) = true.

(** The dictionary that [collect] builds for a route. *)
Definition route_dict (name pattern : string) (predicates : list pyval)
  (module : string) (doc : pyval) (renderer : option renderer_helper)
  : gmap string pyval :=
  <["name" := VStr name]>
  (<["pattern" := VStr pattern]>
  (<["predicates" := VList predicates]>
  (<["module" := VStr module]>
  (<["doc" := doc]>
  (<["renderer" := match renderer with
                   | Some r => VStr (renderer_name r)
                   | None => VNone
                   end]> ∅))))).

(** The key by which [collect] sorts. *)
Definition pattern_key (r : gmap string pyval) : result string :=
  operator.itemgetter "pattern" r ≫= as_str.


(** The pair that [get_view_predicates] makes of a predicate with a [val]. *)
Definition predicate_pair (p : predicate) : option pyval :=
  match predicate_val p with
  | Some v => Some (VTuple [VStr (predicate_type_name p); v])
  | None => None
  end.

(** The ways in which [get_docstring] finds no docstring and answers
    with [None]: [inspect.getsourcefile] raises [TypeError] for the
    unwrapped function (it is no object with source, or the view is
    missing); the source was read and has no line that starts a string
    literal; the source was read and [inspect.getdoc] finds no docstring.
    A source that cannot be read is not among them. *)
Inductive docstring_not_found (view : option pyobj) : Prop :=
| sourcefile_TypeError :
    inspect.getsourcefile (extract._get_unwrapped view) = Raise TypeError →
    docstring_not_found view
| no_string_literal_line filename lines start_offset :
    inspect.getsourcefile (extract._get_unwrapped view) = Ok filename →
    inspect.getsourcelines (extract._get_unwrapped view) = Ok (lines, start_offset) →
    Forall (λ line, extract.starts_string_literal line = false) lines →
    docstring_not_found view
| getdoc_is_None filename lines start_offset :
    inspect.getsourcefile (extract._get_unwrapped view) = Ok filename →
    inspect.getsourcelines (extract._get_unwrapped view) = Ok (lines, start_offset) →
    inspect.getdoc (extract._get_unwrapped view) = None →
    docstring_not_found view.

(** A node holds docstring content, itself or below it. *)
Fixpoint has_docstring (n : node) : bool :=
  match n with
  | Element _ _ children => existsb has_docstring children
  | Text _ => false
  | Docstring _ _ _ => true
  end.

(** An exception is the error that [self.error] makes. *)
Definition is_directive_error {A} (r : result A) : bool :=
  match r with
  | Raise (DirectiveError _) => true
  | _ => false
  end.

(* ===================================================================== *)
(** * The example application of the documentation *)
(* ===================================================================== *)

Module example.

Definition views_py : string := "/home/andy/src/wegweiser/docs/example_app/example/views.py".

(** A function of [example/views.py]: its decorator lines, its [def] line
    and its docstring line, starting at line [start]. *)
Definition view_function (name : string) (decorator : list string)
  (start : Z) (doc : string) : pyobj :=
  PyObj None None (Some (Code name [])) None None
    (Ok (Some views_py))
    (Ok (decorator ++ ["def " +:+ name +:+ "(request):";
                       "    " +:+ str.dquote +:+ doc +:+ str.dquote], start))
    (Some doc) (Some "example.views").

(** The wrapper that Pyramid's view deriver puts around a view with a
    renderer and predicates. *)
Definition rendered_view (view : pyobj) (view_renderer : option renderer_helper)
  (predicates : list predicate) : pyobj :=
  PyObj (Some view) None
    (Some (Code "rendered_view" ["view"; "view_renderer"]))
    (Some [Cell None; Cell view_renderer])
    (Some predicates)
    (Ok (Some "/usr/lib/python/site-packages/pyramid/config/views.py"))
    (Ok (["def rendered_view(context, request):"], 300))
    None (Some "example.views").

Definition view_wiki : pyobj :=
  view_function "view_wiki" ["@view_config(route_name='view_wiki')"] 4
    "Redirect to the FrontPage wiki page.".

Definition view_page : pyobj :=
  rendered_view
    (view_function "view_page"
       ["@view_config(route_name='view_page', renderer='templates/view.pt')"] 8
       "View a single wiki page.")
    (Some (RendererHelper "templates/view.pt")) [].

Definition edit_page : pyobj :=
  rendered_view
    (view_function "edit_page"
       ["@view_config(";
        "    route_name='edit_page', renderer='templates/edit.pt',";
        "    request_method=(" +:+ str.dquote +:+ "GET" +:+ str.dquote +:+ ", "
          +:+ str.dquote +:+ "POST" +:+ str.dquote +:+ "))"] 16
       "Edit an existing wiki page.")
    (Some (RendererHelper "templates/edit.pt"))
    [Predicate "RequestMethodPredicate" (Some (VTuple [VStr "GET"; VStr "POST"]));
     Predicate "RequestParamPredicate" None].

(** A function without a docstring. *)
Definition undocumented : pyobj :=
  PyObj None None (Some (Code "undocumented" [])) None None
    (Ok (Some views_py))
    (Ok (["def undocumented(request):"; "    return {}"], 30))
    None (Some "example.views").

Definition views (request_iface context_iface view_name : string) : option pyobj :=
  if String.eqb request_iface "view_wiki" then Some view_wiki
  else if String.eqb request_iface "view_page" then Some view_page
  else if String.eqb request_iface "edit_page" then Some edit_page
  else if String.eqb request_iface "undocumented" then Some undocumented
  else None.

Definition make_registry (routes : list Route) : Registry :=
  mkRegistry (Some ((λ r, (route_name r, r)) <$> routes)) None
    (λ name, Some name) None (λ _, None) views.

Definition routes : list Route :=
  [ mkRoute "view_wiki" "/" None;
    mkRoute "view_page" "/{pagename}" None;
    mkRoute "edit_page" "{pagename}/edit_page" None;
    mkRoute "undocumented" "/about" None ].

Definition env : Env := mkEnv (make_registry routes) ∅.

(** The same application with one more route, for which no view was
    registered. *)
Definition env_missing_view : Env :=
  mkEnv (make_registry (routes ++ [mkRoute "orphan" "/orphan" None])) ∅.

(** The dictionaries of the four routes, in the order of their patterns. *)
Definition view_wiki_entry : gmap string pyval :=
  route_dict "view_wiki" "/" [] "example.views"
    (VTuple [VStr views_py; VInt 6; VStr "Redirect to the FrontPage wiki page."])
    None.

Definition undocumented_entry : gmap string pyval :=
  route_dict "undocumented" "/about" [] "example.views" VNone None.

Definition view_page_entry : gmap string pyval :=
  route_dict "view_page" "/{pagename}" [] "example.views"
    (VTuple [VStr views_py; VInt 10; VStr "View a single wiki page."])
    (Some (RendererHelper "templates/view.pt")).

Definition edit_page_entry : gmap string pyval :=
  route_dict "edit_page" "/{pagename}/edit_page"
    [VTuple [VStr "RequestMethodPredicate"; VTuple [VStr "GET"; VStr "POST"]]]
    "example.views"
    (VTuple [VStr views_py; VInt 20; VStr "Edit an existing wiki page."])
    (Some (RendererHelper "templates/edit.pt")).

Definition collected : list (gmap string pyval) :=
  [view_wiki_entry; undocumented_entry; view_page_entry; edit_page_entry].

Definition bootstrap (e : Env) (config : string) : result Env :=
  if String.eqb config "development.ini" then Ok e else Raise OSError.

Definition system (e : Env) : System :=
  mkSystem "/usr/bin/python" "/usr/lib/python/site-packages/wegweiser" id
    (extension.extract_process (bootstrap e)).

Definition build_env : BuildEnv :=
  mkBuildEnv None "index" ∅ {[ "app_config" := "development.ini" ]}.

End example.

(* ===================================================================== *)
(** * Further notions used in the statements *)
(* ===================================================================== *)

(** The module name and the name stored in a route dictionary. *)
Definition module_of (r : gmap string pyval) : option string :=
  match r !! "module" with
  | Some (VStr m) => Some m
  | _ => None
  end.

(** The routes of a module, in their order. *)
Definition routes_of_module (name : string) (routes : list (gmap string pyval))
  : list (gmap string pyval) :=
  List.filter (λ r, bool_decide (module_of r = Some name)) routes.

(** The group that [group_by_modules] makes for a module. *)
Definition module_group (doc : pyval) (routes : list (gmap string pyval)) : pyval :=
  VDict (<["doc" := doc]> (<["routes" := VList (VDict <$> routes)]> ∅)).


(** The routes of a list with a given pattern, in their order. *)
Definition with_pattern (p : string) (routes : list (gmap string pyval))
  : list (gmap string pyval) :=
  List.filter (λ r, match r !! "pattern" with
                    | Some (VStr q) => String.eqb q p
                    | _ => false
                    end) routes.

(** The identifiers and the children of a node. *)
Definition node_ids (n : node) : list string :=
  match n with
  | Element _ ids _ => ids
  | Text _ | Docstring _ _ _ => []
  end.

Definition node_children (n : node) : list node :=
  match n with
  | Element _ _ children => children
  | Text _ | Docstring _ _ _ => []
  end.

(** The texts of the [literal] elements among some nodes, in their order. *)
Definition literal_texts (ns : list node) : list pyval :=
  omap (λ n, match n with
             | Element literal _ [Text t] => Some t
             | _ => None
             end) ns.

(** The number of [inline] elements among some nodes. *)
Definition count_inline (ns : list node) : nat :=
  length (List.filter (λ n, match n with
                            | Element inline _ _ => true
                            | _ => false
                            end) ns).

(** The section that the module group renderer starts for a module: its
    identifier, and the title before the other children. *)
Definition module_section (name : string) (children : list node) : node :=
  Element section ["module-" +:+ name]
    (Element title [] [Text (VStr name)] :: children).

(** A route as the directive receives it: a dictionary with a name. *)
Definition named_route (name : string) (r : pyval) : Prop :=
  getitem r "name" = Ok (VStr name).

(** The last route of a list with a given name. *)
Definition last_named (name : string) (rs : list pyval) : option pyval :=
  last (List.filter (λ r, match getitem r "name" with
                          | Ok (VStr n) => String.eqb n name
                          | _ => false
                          end) rs).

(** A wrapper around a view: the object [outer] with [inner] as its
    [__wraps__]. *)
Definition wrap_with (outer inner : pyobj) : pyobj :=
  PyObj (Some inner) (__wrapped__ outer) (__code__ outer) (__closure__ outer)
    (__predicates__ outer) (obj_sourcefile outer) (obj_sourcelines outer)
    (obj_doc outer) (obj_module outer).

(** The object is not the [rendered_view] wrapper of Pyramid. *)
Definition not_rendered_view (o : pyobj) : bool :=
  match __code__ o with
  | None => true
  | Some c => negb (String.eqb (co_name c) "rendered_view")
  end.


(** The value of the first predicate of class [RequestMethodPredicate]
    that has a [val]. *)
Definition first_request_method (ps : list predicate) : option pyval :=
  head (omap (λ p, if String.eqb (predicate_type_name p) "RequestMethodPredicate"
                   then predicate_val p else None) ps).

(** The source files recorded for a document. *)
Definition recorded (env : BuildEnv) (doc : string) : gset hashable :=
  default ∅ (pyramid_routes env ≫= (λ routes, routes !! doc)).

(** From one build environment to a later one the document and the
    configuration stay, the source files recorded for the document are
    kept, and those of the other documents are the same. *)
Definition grows (env env' : BuildEnv) : Prop :=
  docname env' = docname env ∧ wegweiser env' = wegweiser env ∧
  (is_Some (pyramid_routes env) → is_Some (pyramid_routes env')) ∧
  (∀ doc, recorded env doc ⊆ recorded env' doc) ∧
  (∀ doc, doc ≠ docname env → recorded env' doc = recorded env doc).

(** The example application with its module loaded, as the helper sees it
    after the application was started. *)
Module example_modules.

Definition views_module : pyobj :=
  PyObj None None None None None
    (Ok (Some example.views_py))
    (Ok (["from pyramid.view import view_config"; ""], 0))
    None (Some "example.views").

Definition env : Env :=
  mkEnv (registry example.env) {[ "example.views" := views_module ]}.

Definition grouped : gmap string pyval :=
  {[ "example.views" := module_group VNone example.collected ]}.


End example_modules.

(** An application with a view whose docstring is a raw string literal, as
    it is written for a docstring that holds backslashes: the line of the
    docstring starts with the letter r, not with a quote character. *)
Module example_raw.

Definition docstring : string := "Find the pages whose title matches a pattern.".

Definition search : pyobj :=
  PyObj None None (Some (Code "search" [])) None None
    (Ok (Some example.views_py))
    (Ok (["@view_config(route_name='search')";
          "def search(request):";
          "    r" +:+ str.dquote +:+ str.dquote +:+ str.dquote +:+ docstring
            +:+ str.dquote +:+ str.dquote +:+ str.dquote;
          "    return {}"], 40))
    (Some docstring) (Some "example.views").

Definition route : Route := mkRoute "search" "/search" None.

Definition env : Env :=
  mkEnv (mkRegistry (Some [("search", route)]) None (λ name, Some name) None
           (λ _, None) (λ _ _ _, Some search)) ∅.

Definition search_entry : gmap string pyval :=
  route_dict "search" "/search" [] "example.views" VNone None.

End example_raw.

(** An application with a view that is a function of an extension module
    (written in C): it has a docstring, and [inspect] raises [TypeError]
    when it is asked for the source file of such an object. *)
Module example_builtin.

Definition docstring : string := "Return the version of the wiki.".

Definition version : pyobj :=
  PyObj None None None None None
    (Raise TypeError) (Raise TypeError)
    (Some docstring) (Some "example._speedups").

Definition route : Route := mkRoute "version" "/version" None.

Definition env : Env :=
  mkEnv (mkRegistry (Some [("version", route)]) None (λ name, Some name) None
           (λ _, None) (λ _ _ _, Some version)) ∅.

Definition version_entry : gmap string pyval :=
  route_dict "version" "/version" [] "example._speedups" VNone None.

End example_builtin.

(** An application with a view that was made at run time (by [exec], as
    generated code is): [inspect.getsourcefile] finds no source file and
    answers [None], raising nothing, and [inspect.getsourcelines] raises
    [OSError], for there is no source to read.  A view of a module that is
    installed without its source is alike, but for the file name that
    [inspect.getsourcefile] then gives. *)
Module example_generated.

Definition generated : pyobj :=
  PyObj None None (Some (Code "generated" [])) None None
    (Ok None) (Raise OSError) None (Some "example.views").

Definition route : Route := mkRoute "generated" "/generated" None.

Definition env : Env :=
  mkEnv (mkRegistry (Some [("generated", route)]) None (λ name, Some name) None
           (λ _, None) (λ _ _ _, Some generated)) ∅.

End example_generated.

(** An application with three routes for one pattern (one for every
    request method, say), added in an order that is not the order of their
    names, and a route with a smaller pattern added between them. *)
Module example_shared.

Definition routes : list Route :=
  [ mkRoute "view_page" "/{pagename}" None;
    mkRoute "undocumented" "/{pagename}" None;
    mkRoute "view_wiki" "/" None;
    mkRoute "edit_page" "/{pagename}" None ].

Definition env : Env := mkEnv (example.make_registry routes) ∅.

Definition undocumented_entry : gmap string pyval :=
  route_dict "undocumented" "/{pagename}" [] "example.views" VNone None.

Definition edit_page_entry : gmap string pyval :=
  route_dict "edit_page" "/{pagename}"
    [VTuple [VStr "RequestMethodPredicate"; VTuple [VStr "GET"; VStr "POST"]]]
    "example.views"
    (VTuple [VStr example.views_py; VInt 20; VStr "Edit an existing wiki page."])
    (Some (RendererHelper "templates/edit.pt")).

Definition collected : list (gmap string pyval) :=
  [example.view_wiki_entry; example.view_page_entry; undocumented_entry;
   edit_page_entry].

End example_shared.

(* ===================================================================== *)
(** * The order on strings *)
(* ===================================================================== *)

Section StringOrder.

Lemma ascii_compare_refl a : Ascii.compare a a = Eq.
Proof. unfold Ascii.compare. apply N.compare_refl. Qed.

Lemma ascii_compare_trans c a1 a2 a3 :
  Ascii.compare a1 a2 = c → Ascii.compare a2 a3 = c → Ascii.compare a1 a3 = c.
Proof.
  unfold Ascii.compare. destruct c; intros H1 H2.
  - rewrite N.compare_eq_iff in H1, H2 |- *. congruence.
  - rewrite N.compare_lt_iff in H1, H2 |- *. by etrans.
  - rewrite N.compare_gt_iff in H1, H2 |- *. by etrans.
Qed.

Lemma string_compare_refl s : String.compare s s = Eq.
Proof. induction s as [|a s IH]; simpl; [done|]. by rewrite ascii_compare_refl. Qed.

Lemma string_leb_refl s : String.leb s s = true.
Proof. unfold String.leb. by rewrite string_compare_refl. Qed.

Lemma string_leb_trans s1 s2 s3 :
  String.leb s1 s2 = true → String.leb s2 s3 = true → String.leb s1 s3 = true.
Proof.
  unfold String.leb. revert s2 s3.
  induction s1 as [|a1 s1 IH]; intros [|a2 s2] [|a3 s3]; simpl; try done.
  destruct (Ascii.compare a1 a2) eqn:H12; try done;
    destruct (Ascii.compare a2 a3) eqn:H23; try done; intros Ha Hb.
  - rewrite (ascii_compare_trans Eq _ _ _ H12 H23). by apply (IH s2).
  - apply Ascii.compare_eq_iff in H12 as ->. by rewrite H23.
  - apply Ascii.compare_eq_iff in H23 as <-. by rewrite H12.
  - by rewrite (ascii_compare_trans Lt _ _ _ H12 H23).
Qed.

Lemma string_leb_total s1 s2 : String.leb s1 s2 = false → String.leb s2 s1 = true.
Proof. destruct (String.leb_total s1 s2) as [H|H]; [congruence|done]. Qed.

End StringOrder.

(* ===================================================================== *)
(** * Sorting by a key *)
(* ===================================================================== *)

Section Sorted.

Context {A : Type}.

Lemma sorted_insert_perm k (x : A) l : sorted_insert k x l ≡ₚ (k, x) :: l.
Proof.
  induction l as [|[ky y] l IH]; simpl; [done|].
  destruct (String.leb k ky); [done|].
  rewrite IH. apply Permutation_swap.
Qed.

Lemma sorted_pairs_perm (l : list (string * A)) : sorted_pairs l ≡ₚ l.
Proof.
  induction l as [|[k x] l IH]; simpl; [done|].
  by rewrite sorted_insert_perm, IH.
Qed.

Lemma sorted_insert_sorted k (x : A) l :
  StronglySorted key_le l → StronglySorted key_le (sorted_insert k x l).
Proof.
  induction 1 as [|[ky y] l Hs IH Hall]; simpl.
  - repeat constructor.
  - destruct (String.leb k ky) eqn:Hk.
    + constructor; [by constructor|].
      constructor; [done|].
      eapply Forall_impl; [exact Hall|].
      intros [kz z] Hz. unfold key_le in *; simpl in *.
      by eapply string_leb_trans.
    + constructor; [done|].
      rewrite sorted_insert_perm. constructor; [|done].
      unfold key_le; simpl. by apply string_leb_total.
Qed.

Lemma sorted_pairs_sorted (l : list (string * A)) :
  StronglySorted key_le (sorted_pairs l).
Proof.
  induction l as [|[k x] l IH]; simpl; [constructor|].
  by apply sorted_insert_sorted.
Qed.

Lemma decorate_spec (key : A → result string) l d :
  decorate key l = Ok d →
  snd <$> d = l ∧ Forall (λ p, key (snd p) = Ok (fst p)) d.
Proof.
  revert d. induction l as [|x l IH]; simpl; intros d H.
  - by inversion H.
  - destruct (key x) as [k|] eqn:Hk; simpl in H; [|done].
    destruct (decorate key l) as [r|] eqn:Hr; simpl in H; [|done].
    inversion H; subst. destruct (IH r eq_refl) as [Hl Hall].
    split; [by rewrite fmap_cons, Hl|]. by constructor.
Qed.


Lemma StronglySorted_mono (R1 R2 : A → A → Prop) l :
  (∀ a b, R1 a b → R2 a b) → StronglySorted R1 l → StronglySorted R2 l.
Proof.
  intros HR. induction 1 as [|a l _ IH Hall]; constructor; [done|].
  eapply Forall_impl; [exact Hall|]. intros b. apply HR.
Qed.

(** What [sorted] returns is a rearrangement of its argument in ascending
    order of the keys. *)
Lemma sorted_spec (key : A → result string) l l' :
  sorted l key = Ok l' →
  l' ≡ₚ l ∧
  StronglySorted
    (λ a b, ∃ ka kb, key a = Ok ka ∧ key b = Ok kb ∧ String.leb ka kb = true) l'.
Proof.
  unfold sorted. destruct (decorate key l) as [d|] eqn:Hd; simpl; [|done].
  intros H; inversion H; subst; clear H.
  apply decorate_spec in Hd as [<- Hall].
  split; [by rewrite sorted_pairs_perm|].
  assert (Hall' : Forall (λ p, key (snd p) = Ok (fst p)) (sorted_pairs d))
    by by rewrite sorted_pairs_perm.
  pose proof (sorted_pairs_sorted d) as Hs.
  induction Hs as [|[k x] s Hs IH Hle]; simpl; [constructor|].
  inversion Hall' as [|? ? Hx Hrest]; subst.
  constructor; [by apply IH|].
  rewrite Forall_fmap. rewrite Forall_forall in Hle, Hrest |- *.
  intros [k' y] Hy. simpl. exists k, k'. split_and!; [done| |].
  - by apply (Hrest _ Hy).
  - by apply (Hle _ Hy).
Qed.

End Sorted.

(* ===================================================================== *)
(** * The routes that [collect] returns *)
(* ===================================================================== *)

Section Collect.

Import extract.

Lemma route_dict_dom name pattern predicates module doc renderer :
  dom (route_dict name pattern predicates module doc renderer) = route_keys.
Proof. unfold route_dict, route_keys. rewrite !dom_insert_L. set_solver. Qed.

Lemma collect_route_spec registry route r :
  collect_route registry route = Ok r →
  ∃ renderer module doc,
    get_view_renderer (find_view registry route) = Ok renderer ∧
    inspect.getmodule___name__ (find_view registry route) = Ok module ∧
    get_docstring (find_view registry route) = Ok doc ∧
    r = route_dict (route_name route) (stored_pattern (route_pattern route))
          (get_view_predicates (find_view registry route)) module doc renderer.
Proof.
  unfold collect_route. intros H.
  destruct (get_view_renderer _) as [renderer|] eqn:Hr; simpl in H; [|done].
  destruct (inspect.getmodule___name__ _) as [module|] eqn:Hm; simpl in H; [|done].
  destruct (get_docstring _) as [doc|] eqn:Hd; simpl in H; [|done].
  exists renderer, module, doc. split_and!; try done.
  inversion H; subst; clear H. unfold route_dict, stored_pattern.
  destruct (str.startswith (route_pattern route) "/"); simpl;
    destruct renderer; try done;
    apply map_eq; intros k; by rewrite !lookup_insert; repeat case_decide.
Qed.

Lemma collect_route_total registry route renderer module doc :
  get_view_renderer (find_view registry route) = Ok renderer →
  inspect.getmodule___name__ (find_view registry route) = Ok module →
  get_docstring (find_view registry route) = Ok doc →
  collect_route registry route
  = Ok (route_dict (route_name route) (stored_pattern (route_pattern route))
          (get_view_predicates (find_view registry route)) module doc renderer).
Proof.
  intros Hr Hm Hd.
  destruct (collect_route registry route) as [r|e] eqn:H.
  - apply collect_route_spec in H as (r' & m' & d' & Hr' & Hm' & Hd' & ->).
    congruence.
  - unfold collect_route in H. rewrite Hr in H; simpl in H.
    rewrite Hm in H; simpl in H. rewrite Hd in H; simpl in H. done.
Qed.

Lemma collect_loop_spec registry items acc routes :
  collect_loop registry items acc = Ok routes →
  ∃ values, routes = acc ++ values ∧
    Forall2 (λ it v, collect_route registry (snd it) = Ok v) items values.
Proof.
  revert acc. induction items as [|[name route] items IH]; simpl; intros acc H.
  - inversion H; subst. exists []. by rewrite app_nil_r.
  - destruct (collect_route registry route) as [v|] eqn:Hv; simpl in H; [|done].
    apply IH in H as (values & -> & Hall).
    exists (v :: values). split; [by rewrite <- app_assoc|]. by constructor.
Qed.


Lemma pattern_key_spec r k :
  pattern_key r = Ok k ↔ r !! "pattern" = Some (VStr k).
Proof.
  unfold pattern_key, operator.itemgetter.
  destruct (r !! "pattern") as [[]|]; simpl; split; intros H; by inversion H.
Qed.

(** [collect] returns the dictionaries of the mapper's routes, rearranged
    in ascending order of their patterns. *)
Lemma collect_spec env routes :
  collect env = Ok routes →
  ∃ mapper values,
    IRoutesMapper (registry env) = Some mapper ∧
    Forall2 (λ it v, collect_route (registry env) (snd it) = Ok v) mapper values ∧
    routes ≡ₚ values ∧
    StronglySorted pattern_le routes.
Proof.
  unfold collect. destruct (IRoutesMapper _) as [mapper|]; [|done].
  destruct (collect_loop _ _ _) as [values|] eqn:Hl; simpl; [|done].
  intros H. apply collect_loop_spec in Hl as (values' & -> & Hall).
  apply (sorted_spec pattern_key) in H as [Hp Hs].
  exists mapper, values'. split_and!; try done.
  eapply StronglySorted_mono; [|exact Hs].
  intros a b (ka & kb & Ha & Hb & Hle). exists ka, kb.
  by rewrite <- !pattern_key_spec.
Qed.

(** Every dictionary in the result of [collect] is the one of a route of
    the mapper. *)
Lemma collect_entry env routes r :
  collect env = Ok routes → r ∈ routes →
  ∃ mapper name route,
    IRoutesMapper (registry env) = Some mapper ∧ (name, route) ∈ mapper ∧
    collect_route (registry env) route = Ok r.
Proof.
  intros H Hr. apply collect_spec in H as (mapper & values & Hm & Hall & Hp & _).
  rewrite Hp in Hr. apply list_elem_of_lookup in Hr as [i Hi].
  destruct (Forall2_lookup_r _ _ _ _ _ Hall Hi) as ([name route] & Hit & Hv).
  exists mapper, name, route. split_and!; try done.
  by eapply list_elem_of_lookup_2.
Qed.


End Collect.

(* ===================================================================== *)
(** * Docstrings *)
(* ===================================================================== *)

Section Docstring.

Import extract.

Lemma get_docstring_loop_None lines lineno :
  get_docstring_loop lines lineno = None ↔
  Forall (λ line, starts_string_literal line = false) lines.
Proof.
  revert lineno. induction lines as [|line lines IH]; intros lineno; simpl.
  - split; [constructor|done].
  - destruct (starts_string_literal line) eqn:Hl.
    + split; [done|]. intros H. inversion H; congruence.
    + rewrite IH. split; [by constructor|]. by inversion 1.
Qed.

Lemma get_docstring_loop_Some lines lineno :
  Exists (λ line, starts_string_literal line = true) lines →
  ∃ n, get_docstring_loop lines lineno = Some n.
Proof.
  intros H. destruct (get_docstring_loop lines lineno) as [n|] eqn:Hn; [by exists n|].
  apply get_docstring_loop_None in Hn. apply Exists_exists in H as (line & Hin & Hl).
  rewrite Forall_forall in Hn. specialize (Hn _ Hin). congruence.
Qed.

(** The line number that the loop finds is the one of the first line that
    starts a string literal, counted from the offset. *)
Lemma get_docstring_loop_first lines lineno n :
  get_docstring_loop lines lineno = Some n →
  ∃ before line after,
    lines = before ++ line :: after ∧
    Forall (λ line, starts_string_literal line = false) before ∧
    starts_string_literal line = true ∧
    n = lineno + Z.of_nat (length before).
Proof.
  revert lineno. induction lines as [|line lines IH]; intros lineno; simpl; [done|].
  destruct (starts_string_literal line) eqn:Hl.
  - intros [= <-]. exists [], line, lines. simpl. split_and!; try done. lia.
  - intros H. apply IH in H as (before & line' & after & -> & Hb & Hl' & ->).
    exists (line :: before), line', after. simpl. split_and!; try done.
    + by constructor.
    + lia.
Qed.

(** When [get_docstring] returns, it returns [None] or a triple of the
    source file, the line found by the loop and the docstring that
    [inspect.getdoc] gives for the unwrapped function. *)
Lemma get_docstring_inv view doc :
  get_docstring view = Ok doc →
  doc = VNone ∨
  ∃ filename lines start_offset lineno docstring,
    inspect.getsourcefile (_get_unwrapped view) = Ok filename ∧
    inspect.getsourcelines (_get_unwrapped view) = Ok (lines, start_offset) ∧
    get_docstring_loop lines (Z.max start_offset 1) = Some lineno ∧
    inspect.getdoc (_get_unwrapped view) = Some docstring ∧
    doc = VTuple [filename_value filename; VInt lineno; VStr docstring].
Proof.
  unfold get_docstring.
  destruct (inspect.getsourcefile _) as [filename|e] eqn:Hf.
  - destruct (inspect.getsourcelines _) as [[lines start_offset]|] eqn:Hl; simpl; [|done].
    destruct (get_docstring_loop _ _) as [lineno|] eqn:Hn; [|intros [= <-]; by left].
    destruct (inspect.getdoc _) as [docstring|] eqn:Hd; [|intros [= <-]; by left].
    intros [= <-]. right. by exists filename, lines, start_offset, lineno, docstring.
  - destruct e; try done. intros [= <-]. by left.
Qed.

Lemma get_docstring_found view filename lines start_offset lineno docstring :
  inspect.getsourcefile (_get_unwrapped view) = Ok filename →
  inspect.getsourcelines (_get_unwrapped view) = Ok (lines, start_offset) →
  get_docstring_loop lines (Z.max start_offset 1) = Some lineno →
  inspect.getdoc (_get_unwrapped view) = Some docstring →
  get_docstring view
  = Ok (VTuple [filename_value filename; VInt lineno; VStr docstring]).
Proof.
  intros Hf Hl Hn Hd. unfold get_docstring.
  rewrite Hf, Hl; simpl. by rewrite Hn, Hd.
Qed.

Lemma get_docstring_not_findable view :
  docstring_not_found view → get_docstring view = Ok VNone.
Proof.
  unfold get_docstring.
  intros [Hf|filename lines start_offset Hf Hl Hn|filename lines start_offset Hf Hl Hd].
  - by rewrite Hf.
  - rewrite Hf, Hl; simpl.
    apply (get_docstring_loop_None _ (Z.max start_offset 1)) in Hn. by rewrite Hn.
  - rewrite Hf, Hl; simpl. rewrite Hd. by destruct (get_docstring_loop _ _).
Qed.

End Docstring.

(* ===================================================================== *)
(** * Properties of [extract.py] *)
(* ===================================================================== *)

Lemma get_view_predicates_loop_spec ps predicates :
  extract.get_view_predicates_loop ps predicates
  = predicates ++ omap predicate_pair ps.
Proof.
  revert predicates. induction ps as [|p ps IH]; intros predicates.
  - simpl. by rewrite app_nil_r.
  - cbn [extract.get_view_predicates_loop omap list_omap].
    unfold predicate_pair at 1.
    destruct (predicate_val p) as [v|]; rewrite IH; [|done].
    by rewrite <- app_assoc.
Qed.

(** C7: the predicates extracted from a view are the (class name, value)
    pairs of those elements of the view's [__predicates__] that have a
    [val] attribute, one pair for each, in the original order; elements
    without [val] are left out, and a view without [__predicates__] (a
    missing view included) gives the empty list. *)
Theorem get_view_predicates_pairs :
  (∀ view : pyobj,
     extract.get_view_predicates (Some view)
     = omap predicate_pair (default [] (__predicates__ view))) ∧
  (∀ w w' c cl sf sl d m,
     extract.get_view_predicates (Some (PyObj w w' c cl None sf sl d m)) = []) ∧
  extract.get_view_predicates None = [].
Proof.
  split_and!; try done.
  intros view. unfold extract.get_view_predicates. simpl.
  by rewrite get_view_predicates_loop_spec.
Qed.

(** C8: the list that [collect] returns is in ascending order of the
    [pattern] values of its entries. *)
Theorem collect_sorted_by_pattern env routes :
  extract.collect env = Ok routes → StronglySorted pattern_le routes.
Proof.
  intros H. by apply collect_spec in H as (_ & _ & _ & _ & _ & Hs).
Qed.

Lemma collect_sorted_by_pattern_witness :
  extract.collect example.env = Ok example.collected ∧
  StronglySorted pattern_le example.collected.
Proof.
  split; [reflexivity|].
  apply (collect_sorted_by_pattern example.env). reflexivity.
Defined.

Lemma route_dict_lookups name pattern predicates module doc renderer :
  let r := route_dict name pattern predicates module doc renderer in
  r !! "name" = Some (VStr name) ∧
  r !! "pattern" = Some (VStr pattern) ∧
  r !! "predicates" = Some (VList predicates) ∧
  r !! "module" = Some (VStr module) ∧
  r !! "doc" = Some doc ∧
  r !! "renderer" = Some (match renderer with
                          | Some rh => VStr (renderer_name rh)
                          | None => VNone
                          end).
Proof. by split_and!. Qed.

Lemma stored_pattern_startswith pattern :
  str.startswith (stored_pattern pattern) "/" = true.
Proof.
  unfold stored_pattern. destruct (str.startswith pattern "/") eqn:H; [done|].
  by destruct pattern.
Qed.

(** C9: the [pattern] of every route that [collect] returns starts with a
    slash: it is the route's pattern when that starts with a slash, and
    the route's pattern with a slash put in front otherwise. *)
Theorem collect_pattern_leading_slash env routes r :
  extract.collect env = Ok routes → r ∈ routes →
  ∃ mapper name route,
    IRoutesMapper (registry env) = Some mapper ∧ (name, route) ∈ mapper ∧
    r !! "name" = Some (VStr (route_name route)) ∧
    r !! "pattern"
    = Some (VStr (if str.startswith (route_pattern route) "/"
                  then route_pattern route
                  else "/" +:+ route_pattern route)) ∧
    ∃ p, r !! "pattern" = Some (VStr p) ∧ str.startswith p "/" = true.
Proof.
  intros H Hr.
  destruct (collect_entry _ _ _ H Hr) as (mapper & name & route & Hm & Hin & Hv).
  apply collect_route_spec in Hv as (renderer & module & doc & _ & _ & _ & ->).
  exists mapper, name, route. split_and!; try done.
  exists (stored_pattern (route_pattern route)).
  split; [done|]. apply stored_pattern_startswith.
Qed.

Lemma collect_pattern_leading_slash_witness :
  (extract.collect example.env = Ok example.collected ∧
   example.edit_page_entry ∈ example.collected) ∧
  ∃ mapper name route,
    IRoutesMapper (registry example.env) = Some mapper ∧
    (name, route) ∈ mapper ∧
    example.edit_page_entry !! "name" = Some (VStr (route_name route)) ∧
    example.edit_page_entry !! "pattern"
    = Some (VStr (if str.startswith (route_pattern route) "/"
                  then route_pattern route
                  else "/" +:+ route_pattern route)) ∧
    ∃ p, example.edit_page_entry !! "pattern" = Some (VStr p) ∧
         str.startswith p "/" = true.
Proof.
  assert (Hin : example.edit_page_entry ∈ example.collected)
    by (unfold example.collected; set_solver).
  split; [split; [reflexivity|exact Hin]|].
  apply (collect_pattern_leading_slash example.env example.collected);
    [reflexivity|exact Hin].
Defined.

(** X24: every entry that [collect] returns is a dictionary with exactly
    the keys [name], [pattern], [predicates], [module], [doc] and
    [renderer], built from a route of the mapper and the view found for
    it: the name is the one of the route, the pattern is the one of the
    route (after a slash when it starts with none), the predicates are the
    list that [get_view_predicates] gives for the view,
    the module is the name of the view's module, [doc] is [None] or a
    triple of a file name, a line number and a docstring, and [renderer] is
    [None] or the name of the renderer that [get_view_renderer] finds for
    the view. *)
Theorem collect_entry_well_formed env routes r :
  extract.collect env = Ok routes → r ∈ routes →
  dom r = route_keys ∧
  ∃ mapper name route module renderer,
    IRoutesMapper (registry env) = Some mapper ∧ (name, route) ∈ mapper ∧
    let view := extract.find_view (registry env) route in
    r !! "name" = Some (VStr (route_name route)) ∧
    r !! "pattern" = Some (VStr (stored_pattern (route_pattern route))) ∧
    r !! "predicates" = Some (VList (extract.get_view_predicates view)) ∧
    inspect.getmodule___name__ view = Ok module ∧
    r !! "module" = Some (VStr module) ∧
    (r !! "doc" = Some VNone ∨
     ∃ filename lineno docstring,
       r !! "doc"
       = Some (VTuple [extract.filename_value filename; VInt lineno;
                       VStr docstring])) ∧
    extract.get_view_renderer view = Ok renderer ∧
    r !! "renderer" = Some (match renderer with
                            | Some rh => VStr (renderer_name rh)
                            | None => VNone
                            end).
Proof.
  intros H Hr.
  destruct (collect_entry _ _ _ H Hr) as (mapper & name & route & Hm & Hin & Hv).
  apply collect_route_spec in Hv as (renderer & module & doc & Hren & Hmod & Hd & ->).
  split; [apply route_dict_dom|].
  exists mapper, name, route, module, renderer. cbv zeta. split_and!; try done.
  apply get_docstring_inv in Hd
    as [->|(filename & _ & _ & lineno & docstring & _ & _ & _ & _ & ->)].
  - by left.
  - right. by exists filename, lineno, docstring.
Qed.

Lemma collect_entry_well_formed_witness :
  (extract.collect example.env = Ok example.collected ∧
   example.edit_page_entry ∈ example.collected) ∧
  dom example.edit_page_entry = route_keys ∧
  ∃ mapper name route module renderer,
    IRoutesMapper (registry example.env) = Some mapper ∧ (name, route) ∈ mapper ∧
    let view := extract.find_view (registry example.env) route in
    example.edit_page_entry !! "name" = Some (VStr (route_name route)) ∧
    example.edit_page_entry !! "pattern"
    = Some (VStr (stored_pattern (route_pattern route))) ∧
    example.edit_page_entry !! "predicates"
    = Some (VList (extract.get_view_predicates view)) ∧
    inspect.getmodule___name__ view = Ok module ∧
    example.edit_page_entry !! "module" = Some (VStr module) ∧
    (example.edit_page_entry !! "doc" = Some VNone ∨
     ∃ filename lineno docstring,
       example.edit_page_entry !! "doc"
       = Some (VTuple [extract.filename_value filename; VInt lineno;
                       VStr docstring])) ∧
    extract.get_view_renderer view = Ok renderer ∧
    example.edit_page_entry !! "renderer"
    = Some (match renderer with
            | Some rh => VStr (renderer_name rh)
            | None => VNone
            end).
Proof.
  assert (Hin : example.edit_page_entry ∈ example.collected)
    by (unfold example.collected; set_solver).
  split; [split; [reflexivity|exact Hin]|].
  apply (collect_entry_well_formed example.env example.collected);
    [reflexivity|exact Hin].
Defined.

(** C1 as it holds: for a route that [collect] returns and whose view has,
    as its unwrapped function (the one reached by following [__wraps__] and
    [__wrapped__]), a function with a docstring according to
    [inspect.getdoc]: the [doc] of the route is [None] or a triple whose
    docstring is that docstring; it is the triple whenever [inspect] gives
    the source of the function and one of its lines starts, after its
    indentation, with a quote character; and it is [None] whenever
    [inspect] raises [TypeError] for the source file of the function. *)
Theorem collect_doc_is_getdoc env routes r :
  extract.collect env = Ok routes → r ∈ routes →
  ∃ mapper name route,
    IRoutesMapper (registry env) = Some mapper ∧ (name, route) ∈ mapper ∧
    r !! "name" = Some (VStr (route_name route)) ∧
    let func := extract._get_unwrapped (extract.find_view (registry env) route) in
    ∀ docstring, inspect.getdoc func = Some docstring →
      (r !! "doc" = Some VNone ∨
       ∃ filename lineno,
         r !! "doc" = Some (VTuple [filename; VInt lineno; VStr docstring])) ∧
      (∀ filename lines start_offset,
         inspect.getsourcefile func = Ok filename →
         inspect.getsourcelines func = Ok (lines, start_offset) →
         Exists (λ line, extract.starts_string_literal line = true) lines →
         ∃ lineno,
           r !! "doc"
           = Some (VTuple [extract.filename_value filename; VInt lineno;
                           VStr docstring])) ∧
      (inspect.getsourcefile func = Raise TypeError → r !! "doc" = Some VNone).
Proof.
  intros H Hr.
  destruct (collect_entry _ _ _ H Hr) as (mapper & name & route & Hm & Hin & Hv).
  apply collect_route_spec in Hv as (renderer & module & doc & _ & _ & Hd & ->).
  exists mapper, name, route. split_and!; try done.
  intros func docstring Hdoc. subst func. split_and!.
  - apply get_docstring_inv in Hd
      as [->|(filename & _ & _ & lineno & docstring' & _ & _ & _ & Hdoc' & ->)].
    + by left.
    + right. exists (extract.filename_value filename), lineno.
      rewrite Hdoc in Hdoc'. by inversion Hdoc'.
  - intros filename lines start_offset Hf Hl Hex.
    destruct (get_docstring_loop_Some lines (Z.max start_offset 1) Hex) as [n Hn].
    rewrite (get_docstring_found _ _ _ _ _ _ Hf Hl Hn Hdoc) in Hd.
    inversion Hd; subst. by exists n.
  - intros Hf.
    rewrite (get_docstring_not_findable _ (sourcefile_TypeError _ Hf)) in Hd.
    by inversion Hd.
Qed.

Lemma collect_doc_is_getdoc_witness :
  (extract.collect example.env = Ok example.collected ∧
   example.edit_page_entry ∈ example.collected) ∧
  ∃ mapper name route,
    IRoutesMapper (registry example.env) = Some mapper ∧
    (name, route) ∈ mapper ∧
    example.edit_page_entry !! "name" = Some (VStr (route_name route)) ∧
    let func :=
      extract._get_unwrapped (extract.find_view (registry example.env) route) in
    ∀ docstring, inspect.getdoc func = Some docstring →
      (example.edit_page_entry !! "doc" = Some VNone ∨
       ∃ filename lineno,
         example.edit_page_entry !! "doc"
         = Some (VTuple [filename; VInt lineno; VStr docstring])) ∧
      (∀ filename lines start_offset,
         inspect.getsourcefile func = Ok filename →
         inspect.getsourcelines func = Ok (lines, start_offset) →
         Exists (λ line, extract.starts_string_literal line = true) lines →
         ∃ lineno,
           example.edit_page_entry !! "doc"
           = Some (VTuple [extract.filename_value filename; VInt lineno;
                           VStr docstring])) ∧
      (inspect.getsourcefile func = Raise TypeError →
       example.edit_page_entry !! "doc" = Some VNone).
Proof.
  assert (Hin : example.edit_page_entry ∈ example.collected)
    by (unfold example.collected; set_solver).
  split; [split; [reflexivity|exact Hin]|].
  apply (collect_doc_is_getdoc example.env example.collected);
    [reflexivity|exact Hin].
Defined.

(** C1 as stated fails.  The view [version] is a function without Python
    source: it has a docstring, which [inspect.getdoc] gives, but
    [get_docstring] returns [None] at the [TypeError] of
    [inspect.getsourcefile].  The view [search] has a docstring too, but
    its line starts with the prefix of a raw string literal and not with a
    quote character, so that the loop of [get_docstring] finds no line.  For
    both, [collect] stores [None] as the [doc] of the route: there is no
    triple whose docstring is the one of the function. *)
Lemma docstring_is_not_collected :
  (let func :=
     extract._get_unwrapped
       (extract.find_view (registry example_builtin.env) example_builtin.route) in
   inspect.getdoc func = Some example_builtin.docstring ∧
   extract.collect example_builtin.env = Ok [example_builtin.version_entry] ∧
   example_builtin.version_entry !! "doc" = Some VNone ∧
   ¬ ∃ filename lineno,
       example_builtin.version_entry !! "doc"
       = Some (VTuple [filename; VInt lineno; VStr example_builtin.docstring])) ∧
  (let func :=
     extract._get_unwrapped
       (extract.find_view (registry example_raw.env) example_raw.route) in
   inspect.getdoc func = Some example_raw.docstring ∧
   extract.collect example_raw.env = Ok [example_raw.search_entry] ∧
   example_raw.search_entry !! "doc" = Some VNone ∧
   ¬ ∃ filename lineno,
       example_raw.search_entry !! "doc"
       = Some (VTuple [filename; VInt lineno; VStr example_raw.docstring])).
Proof.
  split; (split_and!; try reflexivity; by intros (filename & lineno & H)).
Qed.







(* ===================================================================== *)
(** * Properties of [extension.py] *)
(* ===================================================================== *)

Section Rendering.

Lemma has_docstring_iadd n other :
  has_docstring n = false → existsb has_docstring other = false →
  has_docstring (iadd n other) = false.
Proof.
  destruct n as [kind ids children| |]; simpl; try done.
  intros Hc Ho. rewrite existsb_app, Hc, Ho. reflexivity.
Qed.

Lemma _render_request_methods_loop_no_docstring i methods n :
  has_docstring n = false →
  has_docstring (extension._render_request_methods_loop i methods n) = false.
Proof.
  revert i n. induction methods as [|method rest IH]; intros i n Hn;
    cbn [extension._render_request_methods_loop]; [done|].
  apply IH. apply has_docstring_iadd; [|reflexivity].
  destruct (1 <=? i)%nat; [|done]. by apply has_docstring_iadd.
Qed.

Lemma _render_request_methods_no_docstring route methods :
  extension._render_request_methods route = Ok methods →
  existsb has_docstring methods = false.
Proof.
  unfold extension._render_request_methods.
  destruct (extension._get_request_methods route) as [ms|]; simpl; [|done].
  destruct (truthy ms); [|by intros [= <-]].
  destruct (iter ms) as [l|]; simpl; [|done].
  intros [= <-]. cbn [existsb]. rewrite orb_false_r.
  apply has_docstring_iadd; [|reflexivity].
  by apply _render_request_methods_loop_no_docstring.
Qed.

Lemma _render_response_no_docstring route response :
  extension._render_response route = Ok response →
  existsb has_docstring response = false.
Proof.
  unfold extension._render_response.
  destruct (getitem route "renderer") as [renderer|]; simpl; [|done].
  destruct (truthy renderer); by intros [= <-].
Qed.

(** A route whose [doc] is [None] is rendered as a section with the title,
    the request methods and the response, and nothing else; the set of
    source files of the document is left as it is. *)
Lemma _render_route_without_doc self route env pattern text methods response :
  getitem route "doc" = Ok VNone →
  getitem route "pattern" = Ok pattern →
  extension._strip_prefix self pattern = Ok text →
  extension._render_request_methods route = Ok methods →
  extension._render_response route = Ok response →
  let serial := default 0 (serialno env !! "routeserialno") in
  extension._render_route self route env
  = Ok (Element section ["route-" +:+ pretty serial]
          ([Element title [] [Text text]] ++ methods ++ response),
        mkBuildEnv (pyramid_routes env) (docname env)
          (<["routeserialno" := serial + 1]> (serialno env)) (wegweiser env)).
Proof.
  intros Hdoc Hpat Htext Hm Hr serial. unfold extension._render_route.
  unfold mbind, directive_bind, lift. rewrite Hdoc. cbn [truthy].
  unfold mret, directive_ret, extension.new_serialno, get_env, put_env.
  unfold mbind, directive_bind, mret, directive_ret.
  rewrite Hpat, Htext, Hm, Hr. cbn [iadd]. subst serial.
  by rewrite <- !app_assoc.
Qed.

Lemma _render_route_no_docstring self route env pattern text methods response :
  getitem route "doc" = Ok VNone →
  getitem route "pattern" = Ok pattern →
  extension._strip_prefix self pattern = Ok text →
  extension._render_request_methods route = Ok methods →
  extension._render_response route = Ok response →
  ∃ n env',
    extension._render_route self route env = Ok (n, env') ∧
    has_docstring n = false ∧
    pyramid_routes env' = pyramid_routes env.
Proof.
  intros Hdoc Hpat Htext Hm Hr.
  eexists _, _. split; [by eapply _render_route_without_doc|].
  split; [|done]. cbn [has_docstring app existsb].
  rewrite existsb_app.
  rewrite (_render_request_methods_no_docstring _ _ Hm).
  by rewrite (_render_response_no_docstring _ _ Hr).
Qed.

(** The title of a route whose pattern is a string can always be made. *)
Lemma _strip_prefix_str self pattern :
  ∃ text, extension._strip_prefix self (VStr pattern) = Ok (VStr text).
Proof.
  unfold extension._strip_prefix.
  destruct (options self !! "prefix") as [p|]; [|by eexists].
  destruct (negb (String.eqb p "")); [|by eexists].
  cbn [as_str]. unfold mbind, result_bind.
  destruct (str.startswith pattern p); by eexists.
Qed.

(** The fields of a dictionary of [collect], read back from the JSON
    document. *)
Lemma route_dict_json name pattern predicates module doc renderer :
  let route := json.value (VDict (route_dict name pattern predicates module doc renderer)) in
  getitem route "pattern" = Ok (VStr pattern) ∧
  getitem route "doc" = Ok (json.value doc) ∧
  getitem route "renderer"
  = Ok (match renderer with
        | Some rh => VStr (renderer_name rh)
        | None => VNone
        end).
Proof.
  cbn [json.value]. unfold getitem, operator.itemgetter.
  rewrite !lookup_fmap. split_and!; try done. by destruct renderer.
Qed.

End Rendering.

Lemma get_docstring_None_inv view :
  extract.get_docstring view = Ok VNone → docstring_not_found view.
Proof.
  unfold extract.get_docstring. intros H.
  destruct (inspect.getsourcefile _) as [filename|e] eqn:Hf.
  - destruct (inspect.getsourcelines _) as [[lines start_offset]|] eqn:Hl; [|done].
    cbn [mbind result_bind] in H.
    destruct (extract.get_docstring_loop lines _) as [lineno|] eqn:Hn.
    + destruct (inspect.getdoc _) eqn:Hd; [done|].
      by eapply getdoc_is_None.
    + eapply no_string_literal_line; try done.
      by eapply get_docstring_loop_None.
  - destruct e; try done. by apply sourcefile_TypeError.
Qed.

(** X25: [get_docstring] returns [None] exactly when [inspect] raises
    [TypeError] for the source file of the unwrapped function, or the
    source was read and has no line that starts a string literal, or the
    source was read and [inspect.getdoc] finds no docstring.  The [doc] of
    the route of such a view is then [None], also after the JSON document
    was read back; and [_render_route] gives for that route a section
    without docstring content, without raising an error: it returns
    whenever the request methods of the route can be rendered, and leaves
    the document's set of source files as it is. *)
Theorem missing_docstring_degrades :
  (∀ view, docstring_not_found view ↔ extract.get_docstring view = Ok VNone) ∧
  (∀ registry route r,
     docstring_not_found (extract.find_view registry route) →
     extract.collect_route registry route = Ok r →
     r !! "doc" = Some VNone ∧ getitem (json.value (VDict r)) "doc" = Ok VNone) ∧
  (∀ registry route r self env methods,
     docstring_not_found (extract.find_view registry route) →
     extract.collect_route registry route = Ok r →
     extension._render_request_methods (json.value (VDict r)) = Ok methods →
     ∃ n env',
       extension._render_route self (json.value (VDict r)) env = Ok (n, env') ∧
       has_docstring n = false ∧
       pyramid_routes env' = pyramid_routes env).
Proof.
  split_and!.
  - intros view. split; [apply get_docstring_not_findable|].
    apply get_docstring_None_inv.
  - intros registry route r Hno Hr.
    apply collect_route_spec in Hr as (renderer & module & doc & _ & _ & Hd & ->).
    rewrite (get_docstring_not_findable _ Hno) in Hd. inversion Hd; subst.
    split; [done|]. by destruct (route_dict_json (route_name route)
      (stored_pattern (route_pattern route))
      (extract.get_view_predicates (extract.find_view registry route))
      module VNone renderer) as (_ & -> & _).
  - intros registry route r self env methods Hno Hr Hm.
    apply collect_route_spec in Hr as (renderer & module & doc & _ & _ & Hd & ->).
    rewrite (get_docstring_not_findable _ Hno) in Hd. inversion Hd; subst.
    destruct (route_dict_json (route_name route)
      (stored_pattern (route_pattern route))
      (extract.get_view_predicates (extract.find_view registry route))
      module VNone renderer) as (Hpat & Hdoc & Hren).
    destruct (_strip_prefix_str self (stored_pattern (route_pattern route)))
      as [text Htext].
    assert (Hres : ∃ response,
               extension._render_response
                 (json.value
                    (VDict
                       (route_dict (route_name route)
                          (stored_pattern (route_pattern route))
                          (extract.get_view_predicates
                             (extract.find_view registry route))
                          module VNone renderer)))
               = Ok response).
    { unfold extension._render_response. rewrite Hren.
      unfold mbind, result_bind. destruct (truthy _); by eexists. }
    destruct Hres as [response Hres].
    by eapply _render_route_no_docstring.
Qed.

Lemma missing_docstring_degrades_witness :
  (docstring_not_found (Some example.undocumented) ∧
   extract.get_docstring (Some example.undocumented) = Ok VNone) ∧
  let route := mkRoute "undocumented" "/about" None in
  ((docstring_not_found (extract.find_view (registry example.env) route) ∧
    extract.collect_route (registry example.env) route
    = Ok example.undocumented_entry) ∧
   example.undocumented_entry !! "doc" = Some VNone ∧
   getitem (json.value (VDict example.undocumented_entry)) "doc" = Ok VNone) ∧
  (extension._render_request_methods
     (json.value (VDict example.undocumented_entry)) = Ok [] ∧
   ∃ n env',
     extension._render_route (mkDirective ∅ [])
       (json.value (VDict example.undocumented_entry)) example.build_env
     = Ok (n, env') ∧
     has_docstring n = false ∧
     pyramid_routes env' = pyramid_routes example.build_env).
Proof.
  assert (Hno : docstring_not_found (Some example.undocumented))
    by (by eapply getdoc_is_None).
  destruct missing_docstring_degrades as (H1 & H2 & H3).
  split; [split; [exact Hno|by apply H1]|].
  intros route. split; [split; [split; [exact Hno|reflexivity]|]|split].
  - by apply (H2 (registry example.env) route).
  - reflexivity.
  - by apply (H3 (registry example.env) route example.undocumented_entry
                (mkDirective ∅ []) example.build_env []).
Defined.

(** C5, at a view whose source cannot be read: [inspect.getsourcefile]
    raises nothing for the function, so the [TypeError] that
    [get_docstring] catches does not occur, and [inspect.getsourcelines],
    called outside the [try], raises [OSError].  The function has no
    findable docstring (no source to read, and none for [inspect.getdoc]),
    but [get_docstring] does not return [None] for it, as it does for a
    missing view and for a function whose source has no docstring: the
    exception ends [collect] and [main] before anything is written, and
    the directive fails on the empty output with a [ValueError]. *)
Theorem unreadable_source_aborts_collect :
  let view := Some example_generated.generated in
  extract.find_view (registry example_generated.env) example_generated.route
  = view ∧
  inspect.getsourcefile (extract._get_unwrapped view) = Ok None ∧
  inspect.getsourcelines (extract._get_unwrapped view) = Raise OSError ∧
  inspect.getdoc (extract._get_unwrapped view) = None ∧
  extract.get_docstring None = Ok VNone ∧
  extract.get_docstring (Some example.undocumented) = Ok VNone ∧
  extract.get_docstring view = Raise OSError ∧
  extract.collect_route (registry example_generated.env) example_generated.route
  = Raise OSError ∧
  extract.collect example_generated.env = Raise OSError ∧
  extract.main (example.bootstrap example_generated.env) ["development.ini"]
  = ([], Raise OSError) ∧
  extension.run (example.system example_generated.env) (mkDirective ∅ [])
    example.build_env
  = Raise ValueError.
Proof. by split_and!. Qed.

Lemma json_loads_spec out v : json.loads out = Ok v ↔ out = [v].
Proof.
  unfold json.loads. destruct out as [|d [|d' out]]; split; intros H;
    by inversion H.
Qed.

(** [main] writes one JSON document when it returns, and nothing when an
    exception (the exit of [argparse] included) ends it. *)
Lemma main_writes_one_document bootstrap args :
  (∃ routes, extract.main bootstrap args = ([json.value routes], Ok 0)) ∨
  (∃ e, extract.main bootstrap args = ([], Raise e)).
Proof.
  unfold extract.main.
  match goal with
  | |- context [match ?m with Ok _ => _ | Raise _ => _ end] =>
      destruct m as [routes|e]
  end.
  - left. by exists routes.
  - right. by exists e.
Qed.

(** C2: [get_routes] runs the helper script with the expanded
    configuration path as its positional argument, followed by
    [--group=<group_by>] exactly when [group_by] is true as a condition and
    by [--prefix=<prefix>] exactly when [prefix] is; it returns what
    parsing the helper's standard output as one JSON document gives, and
    [main] writes one document (by its one [json.dump]) when it returns. *)
Theorem get_routes_invokes_helper sys config prefix group_by :
  let args :=
    [sys_executable sys; os_path.join (__file__dirname sys) "extract.py";
     expanduser sys config]
    ++ match group_by with
       | Some (String c g) => ["--group=" +:+ String c g]
       | Some EmptyString | None => []
       end
    ++ match prefix with
       | Some (String c p) => ["--prefix=" +:+ String c p]
       | Some EmptyString | None => []
       end in
  extension.get_routes sys config prefix group_by
  = json.loads (Popen_communicate sys args) ∧
  (∀ v, extension.get_routes sys config prefix group_by = Ok v
        ↔ Popen_communicate sys args = [v]) ∧
  (∀ bootstrap,
     Popen_communicate sys = extension.extract_process bootstrap →
     ∀ v, extension.get_routes sys config prefix group_by = Ok v ↔
          ∃ routes, v = json.value routes ∧
                    extract.main bootstrap (drop 2 args) = ([v], Ok 0)).
Proof.
  intros args.
  assert (Heq : extension.get_routes sys config prefix group_by
                = json.loads (Popen_communicate sys args)).
  { unfold extension.get_routes, args.
    destruct group_by as [[|c g]|], prefix as [[|c' p]|]; reflexivity. }
  split_and!; [done| |].
  - intros v. rewrite Heq. apply json_loads_spec.
  - intros bootstrap Hp v. rewrite Heq, json_loads_spec, Hp.
    unfold extension.extract_process.
    destruct (main_writes_one_document bootstrap (drop 2 args))
      as [[routes Hm]|[e Hm]]; rewrite Hm; simpl; split.
    + intros [= <-]. by exists routes.
    + by intros (routes' & -> & [= ->]).
    + done.
    + by intros (routes' & _ & [=]).
Qed.

Lemma get_routes_invokes_helper_witness :
  Popen_communicate (example.system example.env)
  = extension.extract_process (example.bootstrap example.env) ∧
  extension.get_routes (example.system example.env) "development.ini"
    (Some "/about") (Some "")
  = Ok (json.value (VList [VDict example.undocumented_entry])).
Proof.
  split; [reflexivity|].
  destruct (get_routes_invokes_helper (example.system example.env)
              "development.ini" (Some "/about") (Some "")) as (_ & _ & H).
  apply (H (example.bootstrap example.env) eq_refl).
  exists (VList [VDict example.undocumented_entry]). split; reflexivity.
Defined.

(** Without a view there is no module to name: the dictionary of the route
    cannot be built. *)
Lemma collect_route_missing_view registry route :
  extract.find_view registry route = None →
  extract.collect_route registry route = Raise AttributeError.
Proof. unfold extract.collect_route. by intros ->. Qed.

(** [collect] returns only when a view was found for every route. *)
Lemma collect_needs_views env routes mapper name route :
  extract.collect env = Ok routes →
  IRoutesMapper (registry env) = Some mapper → (name, route) ∈ mapper →
  extract.find_view (registry env) route ≠ None.
Proof.
  intros H Hm Hin Hview.
  apply collect_spec in H as (mapper' & values & Hm' & Hall & _ & _).
  rewrite Hm in Hm'. inversion Hm'; subst mapper'.
  apply list_elem_of_lookup in Hin as [i Hi].
  destruct (Forall2_lookup_l _ _ _ _ _ Hall Hi) as (v & _ & Hv).
  simpl in Hv. by rewrite (collect_route_missing_view _ _ Hview) in Hv.
Qed.

(** C3, at a route for which no view is registered: the renderer, the
    predicates and the docstring of the missing view degrade to nothing,
    but naming its module raises [AttributeError], which ends [collect] and
    [main] before anything is written; the directive then fails on the
    empty output with a [ValueError], not with a directive error. *)
Theorem missing_view_aborts_collect :
  let orphan := mkRoute "orphan" "/orphan" None in
  extract.find_view (registry example.env_missing_view) orphan = None ∧
  extract.get_view_renderer None = Ok None ∧
  extract.get_view_predicates None = [] ∧
  extract.get_docstring None = Ok VNone ∧
  inspect.getmodule___name__ None = Raise AttributeError ∧
  extract.collect_route (registry example.env_missing_view) orphan
  = Raise AttributeError ∧
  extract.collect example.env_missing_view = Raise AttributeError ∧
  extract.main (example.bootstrap example.env_missing_view) ["development.ini"]
  = ([], Raise AttributeError) ∧
  extension.run (example.system example.env_missing_view) (mkDirective ∅ [])
    example.build_env
  = Raise ValueError.
Proof. by split_and!. Qed.

(* ===================================================================== *)
(** * Directive errors *)
(* ===================================================================== *)

(** Only [run] makes a directive error: none of the functions it calls
    raises one. *)

Create HintDb nde discriminated.

Ltac nde_blame :=
  match goal with
  | H : ?c = Raise ?e |- is_directive_error (Raise ?e) = false =>
      let L := fresh in
      assert (L : is_directive_error c = false) by eauto with nde;
      rewrite H in L; exact L
  end.

Ltac nde :=
  unfold mbind, result_bind, directive_bind, lift, mret, directive_ret,
    result_ret, get_env, put_env;
  repeat case_match; simplify_eq; try reflexivity; try nde_blame;
  try solve [eauto with nde].

Section NoDirectiveError.

Lemma nde_as_str v : is_directive_error (as_str v) = false.
Proof. by destruct v. Qed.

Lemma nde_as_hashable v : is_directive_error (as_hashable v) = false.
Proof. by destruct v. Qed.

Lemma nde_itemgetter key d : is_directive_error (operator.itemgetter key d) = false.
Proof. unfold operator.itemgetter. by destruct (d !! key). Qed.

Lemma nde_getitem v key : is_directive_error (getitem v key) = false.
Proof. destruct v; try done. apply nde_itemgetter. Qed.

Lemma nde_getindex v i : is_directive_error (getindex v i) = false.
Proof. unfold getindex. by repeat case_match. Qed.

Lemma nde_iter v : is_directive_error (iter v) = false.
Proof. by destruct v. Qed.

Lemma nde_loads out : is_directive_error (json.loads out) = false.
Proof. unfold json.loads. by repeat case_match. Qed.

Hint Resolve nde_as_str nde_as_hashable nde_itemgetter nde_getitem nde_getindex
  nde_iter nde_loads : nde.

Lemma nde_get_routes sys config prefix group_by :
  is_directive_error (extension.get_routes sys config prefix group_by) = false.
Proof. unfold extension.get_routes. apply nde_loads. Qed.

Lemma nde__strip_prefix self pattern :
  is_directive_error (extension._strip_prefix self pattern) = false.
Proof. unfold extension._strip_prefix. nde. Qed.

Lemma nde__get_request_methods_loop predicates :
  is_directive_error (extension._get_request_methods_loop predicates) = false.
Proof.
  induction predicates as [|item rest IH];
    cbn [extension._get_request_methods_loop]; [done|]. nde.
Qed.

Hint Resolve nde_get_routes nde__strip_prefix nde__get_request_methods_loop : nde.

Lemma nde__get_request_methods route :
  is_directive_error (extension._get_request_methods route) = false.
Proof. unfold extension._get_request_methods. nde. Qed.

Hint Resolve nde__get_request_methods : nde.

Lemma nde__render_request_methods route :
  is_directive_error (extension._render_request_methods route) = false.
Proof. unfold extension._render_request_methods. nde. Qed.

Lemma nde__render_response route :
  is_directive_error (extension._render_response route) = false.
Proof. unfold extension._render_response. nde. Qed.

Lemma nde__render_docstring n doc :
  is_directive_error (extension._render_docstring n doc) = false.
Proof. unfold extension._render_docstring. nde. Qed.

Lemma nde_pyramid_routes_add x env :
  is_directive_error (extension.pyramid_routes_add x env) = false.
Proof. unfold extension.pyramid_routes_add. nde. Qed.

Lemma nde_new_serialno category env :
  is_directive_error (extension.new_serialno category env) = false.
Proof. unfold extension.new_serialno. nde. Qed.

Lemma nde__prepare_env env :
  is_directive_error (extension._prepare_env env) = false.
Proof. unfold extension._prepare_env. nde. Qed.

Lemma nde__get_routes sys prefix group_by env :
  is_directive_error (extension._get_routes sys prefix group_by env) = false.
Proof. unfold extension._get_routes. nde. Qed.

Hint Resolve nde__render_request_methods nde__render_response
  nde__render_docstring nde_pyramid_routes_add nde_new_serialno
  nde__prepare_env nde__get_routes : nde.

Lemma nde__render_route self route env :
  is_directive_error (extension._render_route self route env) = false.
Proof. unfold extension._render_route. nde. Qed.

Hint Resolve nde__render_route : nde.

Lemma nde__render_routes self routes env :
  is_directive_error (extension._render_routes self routes env) = false.
Proof.
  revert env. induction routes as [|route rest IH]; intros env;
    cbn [extension._render_routes]; [done|]. nde.
Qed.

Hint Resolve nde__render_routes : nde.

Lemma nde__default_group_renderer self routes env :
  is_directive_error (extension._default_group_renderer self routes env) = false.
Proof. unfold extension._default_group_renderer. nde. Qed.

Lemma nde__module_group_renderer_routes self routes n env :
  is_directive_error
    (extension._module_group_renderer_routes self routes n env) = false.
Proof.
  revert n env. induction routes as [|route rest IH]; intros n env;
    cbn [extension._module_group_renderer_routes]; [done|]. nde.
Qed.

Hint Resolve nde__module_group_renderer_routes : nde.

Lemma nde__module_group_renderer_loop self items result env :
  is_directive_error
    (extension._module_group_renderer_loop self items result env) = false.
Proof.
  revert result env. induction items as [|[name module] rest IH];
    intros result env; cbn [extension._module_group_renderer_loop]; [done|].
  nde.
Qed.

Hint Resolve nde__module_group_renderer_loop : nde.

Lemma nde__module_group_renderer self modules env :
  is_directive_error (extension._module_group_renderer self modules env) = false.
Proof. unfold extension._module_group_renderer. nde. Qed.

End NoDirectiveError.

(* ===================================================================== *)
(** * The group of the [pyramidroutes] directive *)
(* ===================================================================== *)

Lemma choice_module_inv value v :
  directives.choice ["module"] value = Ok v →
  v = "module" ∧ ∃ a, value = Some a ∧ str.strip (str.lower a) = "module".
Proof.
  unfold directives.choice. destruct value as [a|]; [|done].
  case_bool_decide as Hin; [|done]. intros [= <-].
  apply list_elem_of_singleton in Hin. split; [done|]. by exists a.
Qed.

Lemma option_spec_lookup name convertor :
  extension.option_spec !! name = Some convertor →
  (name = "prefix" ∧ convertor = directives.unchanged) ∨
  (name = "groupby" ∧ convertor = directives.choice ["module"]).
Proof.
  unfold extension.option_spec. rewrite !lookup_insert.
  repeat case_decide; try done; intros [= <-]; auto.
Qed.

(** The options that docutils accepts hold no group but [module], and every
    option line was accepted by its conversion function. *)
Lemma assemble_option_dict_inv option_list options0 options :
  extension.assemble_option_dict option_list options0 = Ok options →
  (options0 !! "groupby" = None ∨ options0 !! "groupby" = Some "module") →
  (options !! "groupby" = None ∨ options !! "groupby" = Some "module") ∧
  ∀ value, ("groupby", value) ∈ option_list →
    ∃ a, value = Some a ∧ str.strip (str.lower a) = "module".
Proof.
  revert options0. induction option_list as [|[name value] rest IH];
    intros options0; cbn [extension.assemble_option_dict].
  - intros [= <-] H0. split; [done|]. intros value Hin. by inversion Hin.
  - destruct (extension.option_spec !! name) as [convertor|] eqn:Hspec; [|done].
    destruct (options0 !! name) eqn:Hdup; [done|].
    destruct (convertor value) as [v|] eqn:Hconv; [|done].
    unfold mbind, result_bind. intros Hrest H0.
    apply option_spec_lookup in Hspec as [[-> ->]|[-> ->]].
    + apply IH in Hrest as [Hg Hall].
      * split; [done|]. intros value' Hin.
        apply elem_of_cons in Hin as [[=]|Hin]. by apply Hall.
      * by rewrite lookup_insert_ne.
    + apply choice_module_inv in Hconv as [-> Hvalue].
      apply IH in Hrest as [Hg Hall].
      * split; [done|]. intros value' Hin.
        apply elem_of_cons in Hin as [[= ->]|Hin]; [done|]. by apply Hall.
      * right. by rewrite lookup_insert_eq.
Qed.

Lemma run_registered_group sys self env :
  options self !! "groupby" = None ∨ options self !! "groupby" = Some "" ∨
  options self !! "groupby" = Some "module" →
  is_directive_error (extension.run sys self env) = false.
Proof.
  intros Hg. unfold extension.run.
  assert (Hr : ∃ renderer : Directive → pyval → directive (list node),
             extension.group_renderer !! default "" (options self !! "groupby")
             = Some renderer ∧
             ∀ routes env', is_directive_error (renderer self routes env') = false).
  { destruct Hg as [->|[->| ->]]; cbn [default from_option id].
    - exists extension._default_group_renderer. split; [done|].
      intros. apply nde__default_group_renderer.
    - exists extension._default_group_renderer. split; [done|].
      intros. apply nde__default_group_renderer.
    - exists extension._module_group_renderer. split; [done|].
      intros. apply nde__module_group_renderer. }
  destruct Hr as (renderer & Hlook & Hren).
  cbv zeta. unfold mbind, directive_bind.
  pose proof (nde__prepare_env env) as H1.
  destruct (extension._prepare_env env) as [[[] env1]|e1]; [|done].
  pose proof (nde__get_routes sys (options self !! "prefix")
                (Some (default "" (options self !! "groupby"))) env1) as H2.
  destruct (extension._get_routes _ _ _ env1) as [[routes env2]|e2]; [|done].
  cbv beta. rewrite Hlook. apply Hren.
Qed.

(** C4 as it holds: a [groupby] option that is not [module] is turned down
    by the directive's [option_spec] when docutils reads the options, so
    that the directive fails with an error of the documentation build and
    [run] is not called and returns no nodes; when docutils calls [run], the
    group is the empty default or [module], a registered name, and for a
    registered name [run] raises no directive error. *)
Theorem groupby_checked_by_option_spec sys option_list arguments env :
  (∀ value,
     ("groupby", value) ∈ option_list →
     (∀ a, value = Some a → str.strip (str.lower a) ≠ "module") →
     ∃ e, extension.run_directive sys option_list arguments env
          = extension.OptionError e) ∧
  (∀ r,
     extension.run_directive sys option_list arguments env = extension.Ran r →
     ∃ options,
       r = extension.run sys (mkDirective options arguments) env ∧
       (options !! "groupby" = None ∨ options !! "groupby" = Some "module") ∧
       is_Some (extension.group_renderer !! default "" (options !! "groupby")) ∧
       is_directive_error r = false) ∧
  (∀ self,
     options self !! "groupby" = None ∨ options self !! "groupby" = Some "" ∨
     options self !! "groupby" = Some "module" →
     is_directive_error (extension.run sys self env) = false).
Proof.
  split_and!.
  - intros value Hin Hvalue. unfold extension.run_directive.
    destruct (extension.assemble_option_dict option_list ∅) as [options|e] eqn:Ha;
      [|by exists e].
    apply assemble_option_dict_inv in Ha as [_ Hall]; [|by left].
    destruct (Hall _ Hin) as (a & -> & Ha). by destruct (Hvalue a).
  - intros r. unfold extension.run_directive.
    destruct (extension.assemble_option_dict option_list ∅) as [options|e] eqn:Ha;
      [|done].
    intros [= <-]. apply assemble_option_dict_inv in Ha as [Hg _]; [|by left].
    exists options. split_and!; try done.
    + by destruct Hg as [->| ->].
    + apply run_registered_group. destruct Hg; auto.
  - intros self. apply run_registered_group.
Qed.

Lemma groupby_checked_by_option_spec_witness :
  ((("groupby", Some "foo") ∈ [("groupby", Some "foo")] ∧
    ∀ a, Some "foo" = Some a → str.strip (str.lower a) ≠ "module") ∧
   ∃ e, extension.run_directive (example.system example.env)
          [("groupby", Some "foo")] [] example.build_env
        = extension.OptionError e) ∧
  (extension.run_directive (example.system example.env)
     [("prefix", Some "/about")] [] example.build_env
   = extension.Ran
       (extension.run (example.system example.env)
          (mkDirective {[ "prefix" := "/about" ]} []) example.build_env) ∧
   ∃ options,
     extension.run (example.system example.env)
       (mkDirective {[ "prefix" := "/about" ]} []) example.build_env
     = extension.run (example.system example.env) (mkDirective options [])
         example.build_env ∧
     (options !! "groupby" = None ∨ options !! "groupby" = Some "module") ∧
     is_Some (extension.group_renderer !! default "" (options !! "groupby")) ∧
     is_directive_error
       (extension.run (example.system example.env)
          (mkDirective {[ "prefix" := "/about" ]} []) example.build_env) = false) ∧
  ((∅ : gmap string string) !! "groupby" = None ∧
   is_directive_error
     (extension.run (example.system example.env) (mkDirective ∅ [])
        example.build_env) = false).
Proof.
  destruct (groupby_checked_by_option_spec (example.system example.env)
              [("groupby", Some "foo")] [] example.build_env) as (H1 & _ & _).
  destruct (groupby_checked_by_option_spec (example.system example.env)
              [("prefix", Some "/about")] [] example.build_env) as (_ & H2 & H3).
  assert (Hin : ("groupby", Some "foo")
                ∈ [("groupby", Some "foo" : option string)])
    by apply list_elem_of_here.
  assert (Hfoo : ∀ a, Some "foo" = Some a → str.strip (str.lower a) ≠ "module")
    by (by intros a [= <-]).
  split_and!.
  - exact Hin.
  - exact Hfoo.
  - exact (H1 _ Hin Hfoo).
  - reflexivity.
  - exact (H2 _ eq_refl).
  - reflexivity.
  - apply (H3 (mkDirective ∅ [])). by left.
Defined.

(** C4 as stated fails: with the group [foo], [run] starts the helper
    before it looks the group up; the helper's argument parser turns the
    group down and writes nothing, and [run] ends with the [ValueError] of
    the JSON parser, not with a directive error. *)
Lemma run_invalid_group_raises_ValueError :
  let self := mkDirective {[ "groupby" := "foo" ]} [] in
  extension.group_renderer !! "foo" = None ∧
  extract.main (example.bootstrap example.env) ["development.ini"; "--group=foo"]
  = ([], Raise (SystemExit 2)) ∧
  extension.run (example.system example.env) self example.build_env
  = Raise ValueError ∧
  ¬ ∃ msg, extension.run (example.system example.env) self example.build_env
          = Raise (DirectiveError msg).
Proof.
  split_and!; try reflexivity. intros [msg H]. discriminate H.
Qed.

(* ===================================================================== *)
(** * Further properties of [extract.py] *)
(* ===================================================================== *)

(** Induction on an object along [__wraps__] and [__wrapped__]. *)
Lemma pyobj_wraps_ind (P : pyobj → Prop) :
  (∀ o,
     (∀ w, __wraps__ o = Some w → P w) →
     (∀ w, __wrapped__ o = Some w → P w) → P o) →
  ∀ o, P o.
Proof.
  intros H. fix F 1. intros [wraps wrapped c cl ps sf sl d m].
  apply H; simpl.
  - intros w Hw. destruct wraps as [w'|]; [|discriminate].
    injection Hw as <-. apply F.
  - intros w Hw. destruct wrapped as [w'|]; [|discriminate].
    injection Hw as <-. apply F.
Qed.

Lemma _get_unwrapped_obj_unfold func :
  extract._get_unwrapped_obj func
  = match __wraps__ func with
    | Some w => extract._get_unwrapped_obj w
    | None =>
        match __wrapped__ func with
        | Some w => extract._get_unwrapped_obj w
        | None => func
        end
    end.
Proof. by destruct func. Qed.

Lemma _get_unwrapped_obj_innermost func :
  let f := extract._get_unwrapped_obj func in
  __wraps__ f = None ∧ __wrapped__ f = None ∧ extract._get_unwrapped_obj f = f.
Proof.
  induction func as [func IHw IHd] using pyobj_wraps_ind. cbv zeta.
  rewrite (_get_unwrapped_obj_unfold func).
  destruct (__wraps__ func) as [w|] eqn:Hw; [by apply IHw|].
  destruct (__wrapped__ func) as [w|] eqn:Hd; [by apply IHd|].
  split_and!; try done. by rewrite _get_unwrapped_obj_unfold, Hw, Hd.
Qed.

(** X1: the function that [_get_unwrapped] reaches has neither a
    [__wraps__] nor a [__wrapped__] attribute, and unwrapping it again gives
    the same function. *)
Theorem _get_unwrapped_innermost func :
  let f := extract._get_unwrapped_obj func in
  __wraps__ f = None ∧ __wrapped__ f = None ∧ extract._get_unwrapped_obj f = f.
Proof. apply _get_unwrapped_obj_innermost. Qed.

(** X2: the docstring of a view is the one of its innermost function: what
    [inspect] says about the wrappers around it plays no part. *)
Theorem get_docstring_of_innermost func :
  extract.get_docstring (Some func)
  = extract.get_docstring (Some (extract._get_unwrapped_obj func)).
Proof.
  unfold extract.get_docstring, extract._get_unwrapped. cbn [fmap option_fmap option_map].
  by destruct (_get_unwrapped_obj_innermost func) as (_ & _ & ->).
Qed.

(** X3: the line number of a docstring triple is the number of the first
    source line that starts a string literal, counted from the start
    offset, or from 1 when the offset is smaller; it is at least 1 and
    lies within the source lines. *)
Theorem get_docstring_line_number view filename lineno docstring :
  extract.get_docstring view = Ok (VTuple [filename; VInt lineno; docstring]) →
  ∃ lines start_offset before line after,
    inspect.getsourcelines (extract._get_unwrapped view) = Ok (lines, start_offset) ∧
    lines = before ++ line :: after ∧
    Forall (λ l, extract.starts_string_literal l = false) before ∧
    extract.starts_string_literal line = true ∧
    lineno = Z.max start_offset 1 + Z.of_nat (length before) ∧
    1 ≤ lineno < Z.max start_offset 1 + Z.of_nat (length lines).
Proof.
  intros H. apply get_docstring_inv in H
    as [H|(f & lines & start_offset & n & d & _ & Hl & Hn & _ & H)]; [done|].
  injection H as _ -> _.
  apply get_docstring_loop_first in Hn as (before & line & after & -> & Hb & Hline & ->).
  exists (before ++ line :: after), start_offset, before, line, after.
  split_and!; try done; rewrite ?length_app; simpl; lia.
Qed.

Lemma get_docstring_line_number_witness :
  extract.get_docstring (Some example.edit_page)
  = Ok (VTuple [VStr example.views_py; VInt 20; VStr "Edit an existing wiki page."]) ∧
  ∃ lines start_offset before line after,
    inspect.getsourcelines (extract._get_unwrapped (Some example.edit_page))
    = Ok (lines, start_offset) ∧
    lines = before ++ line :: after ∧
    Forall (λ l, extract.starts_string_literal l = false) before ∧
    extract.starts_string_literal line = true ∧
    20 = Z.max start_offset 1 + Z.of_nat (length before) ∧
    1 ≤ 20 < Z.max start_offset 1 + Z.of_nat (length lines).
Proof.
  split; [reflexivity|].
  apply (get_docstring_line_number (Some example.edit_page)
           (VStr example.views_py) 20 (VStr "Edit an existing wiki page.")).
  reflexivity.
Defined.

Lemma get_view_renderer_loop_unfold view :
  extract.get_view_renderer_loop view
  = match __wraps__ view with
    | Some w =>
        if not_rendered_view view then extract.get_view_renderer_loop w else view
    | None => view
    end.
Proof. by destruct view. Qed.

(** X4: wrappers that are not the [rendered_view] wrapper are transparent
    for [get_view_renderer]: around any view, any number of them gives the
    renderer of the view itself. *)
Theorem get_view_renderer_through_wrappers wrappers view :
  Forall (λ o, not_rendered_view o = true) wrappers →
  extract.get_view_renderer (Some (foldr wrap_with view wrappers))
  = extract.get_view_renderer (Some view).
Proof.
  induction 1 as [|outer wrappers Houter _ IH]; [done|].
  rewrite <- IH. cbn [foldr]. unfold extract.get_view_renderer.
  rewrite (get_view_renderer_loop_unfold (wrap_with outer _)).
  change (__wraps__ (wrap_with outer (foldr wrap_with view wrappers)))
    with (Some (foldr wrap_with view wrappers)).
  change (not_rendered_view (wrap_with outer (foldr wrap_with view wrappers)))
    with (not_rendered_view outer).
  by rewrite Houter.
Qed.

Lemma get_view_renderer_through_wrappers_witness :
  Forall (λ o, not_rendered_view o = true) [example.undocumented; example.view_wiki] ∧
  extract.get_view_renderer
    (Some (foldr wrap_with example.view_page
             [example.undocumented; example.view_wiki]))
  = Ok (Some (RendererHelper "templates/view.pt")).
Proof.
  assert (H : Forall (λ o, not_rendered_view o = true)
                [example.undocumented; example.view_wiki])
    by (by repeat constructor).
  split; [exact H|].
  by rewrite (get_view_renderer_through_wrappers _ example.view_page H).
Defined.

(** X5: [collect] returns one dictionary for every route of the mapper,
    and none else: the names in its result are the names of the mapper's
    routes, rearranged. *)
Theorem collect_one_entry_per_route env routes mapper :
  extract.collect env = Ok routes →
  IRoutesMapper (registry env) = Some mapper →
  length routes = length mapper ∧
  (λ r : gmap string pyval, r !! "name") <$> routes
  ≡ₚ (λ it : string * Route, Some (VStr (route_name (snd it)))) <$> mapper.
Proof.
  intros H Hm. apply collect_spec in H as (mapper' & values & Hm' & Hall & Hp & _).
  rewrite Hm in Hm'. injection Hm' as <-.
  split.
  - rewrite Hp. symmetry. by eapply Forall2_length.
  - rewrite Hp. clear Hp Hm.
    induction Hall as [|it v mapper values Hv _ IH]; [done|].
    rewrite !fmap_cons, IH. f_equiv.
    by apply collect_route_spec in Hv as (? & ? & ? & _ & _ & _ & ->).
Qed.

Lemma collect_one_entry_per_route_witness :
  (extract.collect example.env = Ok example.collected ∧
   IRoutesMapper (registry example.env)
   = Some ((λ r, (route_name r, r)) <$> example.routes)) ∧
  length example.collected
  = length ((λ r, (route_name r, r)) <$> example.routes) ∧
  (λ r : gmap string pyval, r !! "name") <$> example.collected
  ≡ₚ (λ it : string * Route, Some (VStr (route_name (snd it))))
       <$> ((λ r, (route_name r, r)) <$> example.routes).
Proof.
  split; [by split|].
  by apply (collect_one_entry_per_route example.env).
Defined.

Section Stable.

Context {A : Type}.

Lemma sorted_insert_filter k kx (x : A) l :
  List.filter (λ p, String.eqb (fst p) k) (sorted_insert kx x l)
  = List.filter (λ p, String.eqb (fst p) k) ((kx, x) :: l).
Proof.
  induction l as [|[ky y] l IH]; [done|].
  cbn [sorted_insert]. destruct (String.leb kx ky) eqn:Hle; [done|].
  cbn [List.filter fst] in *. rewrite IH.
  destruct (String.eqb kx k) eqn:Hx; [|done].
  destruct (String.eqb ky k) eqn:Hy; [|done].
  apply String.eqb_eq in Hx as ->. apply String.eqb_eq in Hy as ->.
  by rewrite string_leb_refl in Hle.
Qed.

Lemma sorted_pairs_filter k (l : list (string * A)) :
  List.filter (λ p, String.eqb (fst p) k) (sorted_pairs l)
  = List.filter (λ p, String.eqb (fst p) k) l.
Proof.
  induction l as [|[kx x] l IH]; [done|].
  cbn [sorted_pairs]. rewrite sorted_insert_filter.
  cbn [List.filter]. by rewrite IH.
Qed.

Lemma filter_decorated (f : A → bool) k (d : list (string * A)) :
  Forall (λ p, f (snd p) = String.eqb (fst p) k) d →
  List.filter f (snd <$> d)
  = snd <$> List.filter (λ p, String.eqb (fst p) k) d.
Proof.
  induction 1 as [|[kx x] d Hx _ IH]; [done|].
  cbn [fmap list_fmap List.filter fst snd] in *. rewrite Hx.
  destruct (String.eqb kx k); by rewrite IH.
Qed.

End Stable.

(** X6: the sort of [collect] is stable: the routes that have the same
    pattern come in the order that they have in the mapper. *)
Theorem collect_keeps_mapper_order env routes :
  extract.collect env = Ok routes →
  ∃ mapper values,
    IRoutesMapper (registry env) = Some mapper ∧
    Forall2 (λ it v, extract.collect_route (registry env) (snd it) = Ok v)
      mapper values ∧
    ∀ p, with_pattern p routes = with_pattern p values.
Proof.
  unfold extract.collect. destruct (IRoutesMapper _) as [mapper|]; [|done].
  destruct (extract.collect_loop _ _ _) as [values|] eqn:Hl; [|done].
  apply collect_loop_spec in Hl as (values' & -> & Hall). cbn [app].
  unfold mbind, result_bind, sorted.
  change (decorate _ values') with (decorate pattern_key values').
  destruct (decorate pattern_key values') as [d|] eqn:Hd; [|done].
  intros [= <-]. exists mapper, values'. split_and!; try done.
  intros p. apply decorate_spec in Hd as [<- Hkeys]. unfold with_pattern.
  assert (Hf : ∀ l : list (string * gmap string pyval),
             Forall (λ q, pattern_key (snd q) = Ok (fst q)) l →
             Forall (λ q, match snd q !! "pattern" with
                          | Some (VStr s) => String.eqb s p
                          | _ => false
                          end = String.eqb (fst q) p) l).
  { intros l Hl. eapply Forall_impl; [exact Hl|]. intros [k r] Hk. simpl in *.
    apply pattern_key_spec in Hk. by rewrite Hk. }
  rewrite (filter_decorated _ p (sorted_pairs d)),
    (filter_decorated _ p d), sorted_pairs_filter; try done.
  - by apply Hf.
  - apply Hf. by rewrite sorted_pairs_perm.
Qed.

Lemma collect_keeps_mapper_order_witness :
  extract.collect example_shared.env = Ok example_shared.collected ∧
  with_pattern "/{pagename}" example_shared.collected
  = [example.view_page_entry; example_shared.undocumented_entry;
     example_shared.edit_page_entry] ∧
  ∃ mapper values,
    IRoutesMapper (registry example_shared.env) = Some mapper ∧
    Forall2 (λ it v, extract.collect_route (registry example_shared.env) (snd it)
                     = Ok v)
      mapper values ∧
    ∀ p, with_pattern p example_shared.collected = with_pattern p values.
Proof.
  split; [reflexivity|]. split; [reflexivity|].
  by apply (collect_keeps_mapper_order example_shared.env).
Defined.




(* ===================================================================== *)
(** * Grouping by modules *)
(* ===================================================================== *)

Section Grouping.

Import extract.

Context (modules : gmap string pyobj).

Lemma module_group_append doc (rs : list (gmap string pyval)) r :
  VDict (<["routes" := VList ((VDict <$> rs) ++ [VDict r])]>
           (<["doc" := doc]> (<["routes" := VList (VDict <$> rs)]> ∅)))
  = module_group doc (rs ++ [r]).
Proof.
  unfold module_group. f_equal. rewrite fmap_app. apply map_eq. intros k.
  rewrite !lookup_insert. repeat case_decide; simplify_eq; done.
Qed.

Lemma routes_of_module_snoc name done r :
  routes_of_module name (done ++ [r])
  = routes_of_module name done
    ++ (if bool_decide (module_of r = Some name) then [r] else []).
Proof.
  unfold routes_of_module. rewrite List.filter_app. cbn [List.filter].
  by destruct (bool_decide _).
Qed.

(** What the loop of [group_by_modules] keeps true of the groups made so
    far. *)
Lemma group_by_modules_loop_spec rest done grouped grouped' :
  (∀ name,
     match grouped !! name with
     | None => routes_of_module name done = []
     | Some g =>
         routes_of_module name done ≠ [] ∧
         ∃ module doc,
           modules !! name = Some module ∧
           get_docstring (Some module) = Ok doc ∧
           g = module_group doc (routes_of_module name done)
     end) →
  group_by_modules_loop modules rest grouped = Ok grouped' →
  ∀ name,
    match grouped' !! name with
    | None => routes_of_module name (done ++ rest) = []
    | Some g =>
        routes_of_module name (done ++ rest) ≠ [] ∧
        ∃ module doc,
          modules !! name = Some module ∧
          get_docstring (Some module) = Ok doc ∧
          g = module_group doc (routes_of_module name (done ++ rest))
    end.
Proof.
  revert done grouped. induction rest as [|r rest IH]; intros done grouped Hinv.
  - intros [= <-]. by rewrite app_nil_r.
  - cbn [group_by_modules_loop]. unfold mbind, result_bind, operator.itemgetter.
    destruct (r !! "module") as [[|m| | | |]|] eqn:Hm; try done. cbn [as_str].
    assert (Hmod : module_of r = Some m) by (unfold module_of; by rewrite Hm).
    intros Hloop.
    replace (done ++ r :: rest) with ((done ++ [r]) ++ rest)
      by (by rewrite <- app_assoc).
    pose proof (Hinv m) as Hinv_m.
    destruct (grouped !! m) as [g0|] eqn:Hg.
    + destruct Hinv_m as (Hne & module & doc & Hmodule & Hdoc & ->).
      rewrite Hg in Hloop. unfold module_group in Hloop.
      rewrite lookup_insert_ne, lookup_insert_eq in Hloop by done.
      rewrite module_group_append in Hloop.
      eapply IH; [|exact Hloop]. intros name.
      rewrite routes_of_module_snoc, Hmod.
      destruct (decide (m = name)) as [<-|Hname].
      * rewrite lookup_insert_eq, bool_decide_eq_true_2 by done.
        split; [by destruct (routes_of_module m done)|].
        by exists module, doc.
      * rewrite lookup_insert_ne, bool_decide_eq_false_2, app_nil_r by congruence.
        apply Hinv.
    + destruct (modules !! m) as [module|] eqn:Hmodule; [|done].
      destruct (get_docstring (Some module)) as [doc|] eqn:Hdoc; [|done].
      cbn [mbind] in Hloop. rewrite lookup_insert_eq in Hloop.
      rewrite lookup_insert_ne, lookup_insert_eq in Hloop by done.
      rewrite insert_insert_eq in Hloop.
      change (VList ([] ++ [VDict r]))
        with (VList ((VDict <$> @nil (gmap string pyval)) ++ [VDict r])) in Hloop.
      change (<["doc":=doc]> (<["routes":=VList []]> (∅ : gmap string pyval)))
        with (<["doc":=doc]>
                (<["routes":=VList (VDict <$> @nil (gmap string pyval))]>
                   (∅ : gmap string pyval))) in Hloop.
      rewrite module_group_append in Hloop.
      eapply IH; [|exact Hloop]. intros name.
      rewrite routes_of_module_snoc, Hmod.
      destruct (decide (m = name)) as [<-|Hname].
      * rewrite lookup_insert_eq, bool_decide_eq_true_2, Hinv_m by done.
        split; [done|]. by exists module, doc.
      * rewrite lookup_insert_ne, bool_decide_eq_false_2, app_nil_r by congruence.
        apply Hinv.
Qed.

(** X8: [group_by_modules] makes one group for every module that has a
    route, under the module's name: it holds the docstring triple of the
    module, which must be in [sys.modules], and the routes of the module in
    the order of the list; a module without routes has no group. *)
Theorem group_by_modules_groups routes grouped :
  group_by_modules modules routes = Ok grouped →
  ∀ name,
    match grouped !! name with
    | None => routes_of_module name routes = []
    | Some g =>
        routes_of_module name routes ≠ [] ∧
        ∃ module doc,
          modules !! name = Some module ∧
          get_docstring (Some module) = Ok doc ∧
          g = module_group doc (routes_of_module name routes)
    end.
Proof.
  intros H. by apply (group_by_modules_loop_spec routes [] ∅ grouped).
Qed.

End Grouping.

Lemma group_by_modules_groups_witness :
  extract.group_by_modules (sys_modules example_modules.env) example.collected
  = Ok example_modules.grouped ∧
  ∀ name,
    match example_modules.grouped !! name with
    | None => routes_of_module name example.collected = []
    | Some g =>
        routes_of_module name example.collected ≠ [] ∧
        ∃ module doc,
          sys_modules example_modules.env !! name = Some module ∧
          extract.get_docstring (Some module) = Ok doc ∧
          g = module_group doc (routes_of_module name example.collected)
    end.
Proof.
  split; [reflexivity|].
  by apply (group_by_modules_groups (sys_modules example_modules.env)).
Defined.

(* ===================================================================== *)
(** * The helper as the directives run it *)
(* ===================================================================== *)




Section CommandLine.

Lemma startswith_dash_prefix config rest :
  str.startswith config "-" = false →
  str.startswith config (String "-" rest) = false.
Proof.
  unfold str.startswith. destruct config as [|c config]; [done|].
  cbn [String.prefix]. destruct (ascii_dec "-" c); [|done].
  by destruct config.
Qed.

Lemma startswith_app a b : str.startswith (a +:+ b) a = true.
Proof.
  unfold str.startswith. induction a as [|c a IH].
  - by destruct b.
  - change (String c a +:+ b) with (String c (a +:+ b)). cbn [String.prefix].
    by destruct (ascii_dec c c).
Qed.


Lemma parse_args_unregistered_group config g rest :
  str.startswith config "-" = false → g ≠ "module" →
  extract.parse_args (config :: ("--group=" +:+ g) :: rest) = Raise (SystemExit 2).
Proof.
  intros Hc Hg. unfold extract.parse_args. cbn [extract.parse_args_loop].
  rewrite !(startswith_dash_prefix config) by done.
  change (str.startswith ("--group=" +:+ g) "--prefix=") with false.
  rewrite (startswith_app "--group=" g).
  change (str.slice_from 8 ("--group=" +:+ g)) with g.
  unfold extract.GROUP_FUNCS. by rewrite lookup_singleton_ne.
Qed.

End CommandLine.



(** X11: with the helper of the repository as the process and a
    configuration path that, expanded, does not start with a dash (the
    argument parser would read it as an option), a group that is neither
    empty nor [module] makes the parser turn the command line down, so
    that [get_routes] finds no document in the output and raises
    [ValueError], whatever the application and the prefix are. *)
Theorem get_routes_unregistered_group sys bootstrap config prefix g :
  Popen_communicate sys = extension.extract_process bootstrap →
  str.startswith (expanduser sys config) "-" = false →
  g ≠ "" → g ≠ "module" →
  extension.get_routes sys config prefix (Some g) = Raise ValueError.
Proof.
  intros Hp Hcfg Hg Hm. unfold extension.get_routes. rewrite Hp.
  unfold extension.extract_process, extract.main.
  assert (Hgiven : extension.given (Some g) = true).
  { cbn [extension.given]. destruct (String.eqb g "") eqn:E; [|done].
    by apply String.eqb_eq in E. }
  rewrite Hgiven. cbn [default from_option id].
  assert (Hargs : ∀ rest,
             extract.parse_args
               (drop 2
                  (([sys_executable sys;
                     os_path.join (__file__dirname sys) "extract.py";
                     expanduser sys config] ++ ["--group=" +:+ g]) ++ rest))
             = Raise (SystemExit 2)).
  { intros rest. by apply parse_args_unregistered_group. }
  destruct (extension.given prefix).
  - by rewrite Hargs.
  - specialize (Hargs []). rewrite app_nil_r in Hargs. by rewrite Hargs.
Qed.

Lemma get_routes_unregistered_group_witness :
  (Popen_communicate (example.system example.env)
   = extension.extract_process (example.bootstrap example.env) ∧
   str.startswith (expanduser (example.system example.env) "development.ini") "-"
   = false ∧ "package" ≠ "" ∧ "package" ≠ "module") ∧
  extension.get_routes (example.system example.env) "development.ini" None
    (Some "package")
  = Raise ValueError.
Proof.
  split; [by split_and!|].
  by apply (get_routes_unregistered_group (example.system example.env)
              (example.bootstrap example.env)).
Defined.

(* ===================================================================== *)
(** * Further properties of [extension.py] *)
(* ===================================================================== *)

Section Strings.

Lemma prefix_app_inv p s : String.prefix p s = true → ∃ r, s = p +:+ r.
Proof.
  revert s. induction p as [|c p IH]; intros s.
  - intros _. by exists s.
  - destruct s as [|b s]; cbn [String.prefix]; [done|].
    destruct (ascii_dec c b) as [->|]; [|done].
    intros [r ->]%IH. by exists r.
Qed.

Lemma slice_from_app a b : str.slice_from (String.length a) (a +:+ b) = b.
Proof. induction a as [|c a IH]; [by destruct b|]. exact IH. Qed.

Lemma substring_last_inv p :
  String.substring (String.length p - 1) 1 p = "/" → ∃ q, p = q +:+ "/".
Proof.
  induction p as [|c p IH]; [done|].
  cbn [String.length]. rewrite Nat.sub_succ, Nat.sub_0_r.
  destruct p as [|c' p].
  - cbn. intros [= ->]. by exists "".
  - cbn [String.length String.substring] in *.
    rewrite Nat.sub_succ, Nat.sub_0_r in IH.
    intros [q ->]%IH. by exists (String c q).
Qed.

Lemma endswith_slash_inv p : str.endswith p "/" = true → ∃ q, p = q +:+ "/".
Proof.
  unfold str.endswith. intros [_ H]%andb_prop.
  apply String.eqb_eq in H. by apply substring_last_inv.
Qed.

Lemma length_app_slash q : String.length (q +:+ "/") = S (String.length q).
Proof.
  induction q as [|c q IH]; [done|].
  change (String c q +:+ "/") with (String c (q +:+ "/")).
  cbn [String.length]. by f_equal.
Qed.

Lemma slice_from_before_slash q rest :
  str.slice_from (String.length q) ((q +:+ "/") +:+ rest) = "/" +:+ rest.
Proof. induction q as [|c q IH]; [done|]. exact IH. Qed.

End Strings.

(** X12: [_strip_prefix] leaves a pattern as it is when the directive has
    no prefix, an empty one, or one that the pattern does not start with.
    Otherwise it takes the prefix off the pattern, but not the slash that
    the prefix ends with: the title of a route under the prefix [/api/]
    starts with a slash like the one under [/api]. *)
Theorem _strip_prefix_spec self pattern :
  match options self !! "prefix" with
  | None => extension._strip_prefix self (VStr pattern) = Ok (VStr pattern)
  | Some p =>
      if String.eqb p "" || negb (str.startswith pattern p)
      then extension._strip_prefix self (VStr pattern) = Ok (VStr pattern)
      else
        ∃ rest, pattern = p +:+ rest ∧
          if str.endswith p "/"
          then (∃ q, p = q +:+ "/") ∧
               extension._strip_prefix self (VStr pattern)
               = Ok (VStr ("/" +:+ rest))
          else extension._strip_prefix self (VStr pattern) = Ok (VStr rest)
  end.
Proof.
  unfold extension._strip_prefix.
  destruct (options self !! "prefix") as [p|]; [|done].
  destruct (String.eqb p "") eqn:Hp; [done|]. cbn [negb orb as_str].
  unfold mbind, result_bind.
  destruct (str.startswith pattern p) eqn:Hs; [|done]. cbn [negb].
  apply prefix_app_inv in Hs as [rest ->]. exists rest. split; [done|].
  destruct (str.endswith p "/") eqn:He.
  - destruct (endswith_slash_inv p He) as [q ->]. split; [by exists q|].
    rewrite length_app_slash. cbn [Nat.sub]. rewrite Nat.sub_0_r.
    by rewrite slice_from_before_slash.
  - by rewrite Nat.sub_0_r, slice_from_app.
Qed.

Lemma json_predicate_pairs (ps : list predicate) :
  json.value <$> omap predicate_pair ps
  = omap (λ p, match predicate_val p with
               | Some v => Some (VList [VStr (predicate_type_name p); json.value v])
               | None => None
               end) ps.
Proof.
  induction ps as [|p ps IH]; [done|].
  cbn [omap list_omap]. unfold predicate_pair at 1.
  destruct (predicate_val p); [|done]. by rewrite fmap_cons, IH.
Qed.

Lemma _get_request_methods_loop_pairs (ps : list predicate) :
  extension._get_request_methods_loop
    (omap (λ p, match predicate_val p with
                | Some v => Some (VList [VStr (predicate_type_name p); json.value v])
                | None => None
                end) ps)
  = Ok (default (VList []) (json.value <$> first_request_method ps)).
Proof.
  unfold first_request_method. induction ps as [|p ps IH]; [done|].
  cbn [omap list_omap]. destruct (predicate_val p) as [v|] eqn:Hv.
  - cbn [extension._get_request_methods_loop iter mbind result_bind eq_str].
    destruct (String.eqb (predicate_type_name p) "RequestMethodPredicate"); [done|].
    exact IH.
  - destruct (String.eqb (predicate_type_name p) "RequestMethodPredicate");
      exact IH.
Qed.

(** X13: the request methods that the directive shows for a route of
    [collect] are the value of the first predicate of the view of class
    [RequestMethodPredicate] that has a [val], as it reads after the JSON
    document, and the empty list when the view has no such predicate. *)
Theorem _get_request_methods_of_view registry route r :
  extract.collect_route registry route = Ok r →
  extension._get_request_methods (json.value (VDict r))
  = Ok (default (VList [])
          (json.value
             <$> first_request_method
                   (default [] (extract.find_view registry route ≫= __predicates__)))).
Proof.
  intros Hr. apply collect_route_spec in Hr as (renderer & module & doc & _ & _ & _ & ->).
  unfold extension._get_request_methods, getitem, operator.itemgetter.
  cbn [json.value]. rewrite lookup_fmap.
  change (route_dict _ _ ?ps _ _ _ !! "predicates") with (Some (VList ps)).
  cbn [fmap option_fmap option_map json.value mbind result_bind iter].
  unfold extract.get_view_predicates.
  rewrite get_view_predicates_loop_spec. cbn [app].
  rewrite json_predicate_pairs. apply _get_request_methods_loop_pairs.
Qed.

Lemma _get_request_methods_of_view_witness :
  extract.collect_route (registry example.env)
    (mkRoute "edit_page" "{pagename}/edit_page" None)
  = Ok example.edit_page_entry ∧
  extension._get_request_methods (json.value (VDict example.edit_page_entry))
  = Ok (default (VList [])
          (json.value
             <$> first_request_method
                   (default []
                      (extract.find_view (registry example.env)
                         (mkRoute "edit_page" "{pagename}/edit_page" None)
                       ≫= __predicates__)))).
Proof.
  split; [reflexivity|].
  by apply (_get_request_methods_of_view (registry example.env)).
Defined.

Lemma _render_request_methods_loop_children i methods kind ids children :
  ∃ extra,
    extension._render_request_methods_loop i methods (Element kind ids children)
    = Element kind ids (children ++ extra) ∧
    literal_texts extra = methods ∧
    count_inline extra
    = match i with
      | O => (length methods - 1)%nat
      | S _ => length methods
      end.
Proof.
  revert i children. induction methods as [|method rest IH]; intros i children.
  - exists []. rewrite app_nil_r. by destruct i.
  - cbn [extension._render_request_methods_loop].
    destruct i as [|i]; cbn [Nat.leb iadd].
    + destruct (IH 1%nat (children ++ [Element literal [] [Text method]]))
        as (extra & -> & Hl & Hc).
      exists (Element literal [] [Text method] :: extra).
      split_and!.
      * by rewrite <- app_assoc.
      * unfold literal_texts in *. cbn [omap list_omap]. by rewrite Hl.
      * unfold count_inline in *. cbn [List.filter length]. rewrite Hc.
        cbn [length]. lia.
    + destruct (IH (S (S i))
                  ((children ++ [Element inline [] [Text (VStr ", ")]])
                   ++ [Element literal [] [Text method]]))
        as (extra & -> & Hl & Hc).
      exists (Element inline [] [Text (VStr ", ")]
              :: Element literal [] [Text method] :: extra).
      split_and!.
      * by rewrite <- !app_assoc.
      * unfold literal_texts in *. cbn [omap list_omap]. by rewrite Hl.
      * unfold count_inline in *. cbn [List.filter length]. by rewrite Hc.
Qed.

(** X14: for a route with request methods, [_render_request_methods]
    gives one paragraph that shows every method once, as a literal, in
    their order, with one separator less than there are methods; for a
    route without request methods it gives nothing. *)
Theorem _render_request_methods_shows_methods route methods :
  extension._get_request_methods route = Ok (VList methods) →
  match methods with
  | [] => extension._render_request_methods route = Ok []
  | _ :: _ =>
      ∃ children,
        extension._render_request_methods route
        = Ok [Element paragraph [] children] ∧
        literal_texts children = methods ∧
        count_inline children = (length methods - 1)%nat
  end.
Proof.
  intros Hm. unfold extension._render_request_methods. rewrite Hm.
  cbn [mbind result_bind truthy]. destruct methods as [|m methods]; [done|].
  cbn [iter iadd app]. unfold mbind, result_bind.
  destruct (_render_request_methods_loop_children 0 (m :: methods) paragraph []
              [Element strong [] [Text (VStr "Request methods: ")]])
    as (extra & -> & Hl & Hc).
  cbn [iadd]. eexists. split; [done|].
  unfold literal_texts, count_inline in *.
  rewrite !omap_app, !List.filter_app, !length_app, Hl, Hc.
  cbn [omap list_omap List.filter length app]. rewrite app_nil_r. split; [done|lia].
Qed.

Lemma _render_request_methods_shows_methods_witness :
  extension._get_request_methods (json.value (VDict example.edit_page_entry))
  = Ok (VList [VStr "GET"; VStr "POST"]) ∧
  ∃ children,
    extension._render_request_methods (json.value (VDict example.edit_page_entry))
    = Ok [Element paragraph [] children] ∧
    literal_texts children = [VStr "GET"; VStr "POST"] ∧
    count_inline children = (length [VStr "GET"; VStr "POST"] - 1)%nat.
Proof.
  split; [reflexivity|].
  by apply (_render_request_methods_shows_methods
              (json.value (VDict example.edit_page_entry))
              [VStr "GET"; VStr "POST"]).
Defined.

(* ===================================================================== *)
(** * What the directives do to the build environment *)
(* ===================================================================== *)

Section Environment.

Lemma directive_bind_inv {A B} (m : directive A) (f : A → directive B) env b env' :
  (m ≫= f) env = Ok (b, env') →
  ∃ a env1, m env = Ok (a, env1) ∧ f a env1 = Ok (b, env').
Proof.
  unfold mbind, directive_bind. destruct (m env) as [[a env1]|]; [|done].
  intros H. by exists a, env1.
Qed.

Lemma lift_inv {A} (r : result A) env a env' :
  lift r env = Ok (a, env') → r = Ok a ∧ env' = env.
Proof. unfold lift. destruct r; [|done]. by intros [= -> ->]. Qed.

Lemma grows_refl env : grows env env.
Proof. by split_and!. Qed.

Lemma grows_trans env1 env2 env3 : grows env1 env2 → grows env2 env3 → grows env1 env3.
Proof.
  intros (Hd & Hw & Hs & Hsub & Hother) (Hd' & Hw' & Hs' & Hsub' & Hother').
  split_and!; try congruence; try tauto.
  - intros doc. etrans; [apply Hsub|apply Hsub'].
  - intros doc Hdoc. rewrite Hother' by congruence. by apply Hother.
Qed.

Lemma recorded_insert routes doc files d n s w :
  recorded (mkBuildEnv (Some (<[doc := files]> routes)) d n s) w
  = if decide (doc = w) then files else default ∅ (routes !! w).
Proof.
  unfold recorded. cbn [pyramid_routes mbind option_bind].
  rewrite lookup_insert. by case_decide.
Qed.

Lemma pyramid_routes_add_inv doc env u env' :
  extension.pyramid_routes_add doc env = Ok (u, env') →
  grows env env' ∧ serialno env' = serialno env ∧
  ∃ filename h,
    getindex doc 0 = Ok filename ∧ as_hashable filename = Ok h ∧
    h ∈ recorded env' (docname env).
Proof.
  unfold extension.pyramid_routes_add, get_env, put_env, mbind, directive_bind, lift.
  destruct (pyramid_routes env) as [routes|] eqn:Hr; [|done].
  destruct (getindex doc 0) as [filename|] eqn:Hf; [|done].
  destruct (as_hashable filename) as [h|] eqn:Hh; [|done].
  intros [= <- <-]. split_and!; try done.
  - unfold grows, recorded. cbn [pyramid_routes docname wegweiser].
    rewrite Hr. cbn [mbind option_bind]. split_and!; try done.
    + intros doc'. rewrite lookup_insert.
      case_decide as Hd; [subst doc'|done]. set_solver.
    + intros doc' Hdoc. rewrite lookup_insert. by case_decide.
  - exists filename, h. split_and!; try done.
    unfold recorded. cbn [pyramid_routes mbind option_bind].
    rewrite lookup_insert_eq. set_solver.
Qed.

Lemma _render_docstring_inv kind ids children doc n :
  extension._render_docstring (Element kind ids children) doc = Ok n →
  ∃ filename lineno docstring,
    iter doc = Ok [filename; VInt lineno; VStr docstring] ∧
    n = Element kind ids (children ++ [Docstring filename (VInt lineno) docstring]).
Proof.
  unfold extension._render_docstring, mbind, result_bind.
  destruct (iter doc) as [[|f [|l [|d [|]]]]|]; try done.
  destruct d; try done. cbn [as_str]. destruct l; try done.
  intros [= <-]. by eexists _, _, _.
Qed.

(** What a call of [_render_route] that returns has done: the section has
    the next serial number in its identifier, the counter went up by one,
    the source file of a docstring is recorded for the document, and the
    docstring content is the last child of the section. *)
Lemma _render_route_inv self route env n env' :
  extension._render_route self route env = Ok (n, env') →
  let serial := default 0 (serialno env !! "routeserialno") in
  ∃ doc children,
    getitem route "doc" = Ok doc ∧
    n = Element section ["route-" +:+ pretty serial] children ∧
    serialno env' = <["routeserialno" := serial + 1]> (serialno env) ∧
    grows env env' ∧
    (if truthy doc
     then ∃ filename h,
            getindex doc 0 = Ok filename ∧ as_hashable filename = Ok h ∧
            h ∈ recorded env' (docname env)
     else pyramid_routes env' = pyramid_routes env) ∧
    match doc with
    | VNone => True
    | _ => ∃ filename lineno docstring,
             iter doc = Ok [filename; VInt lineno; VStr docstring] ∧
             last children = Some (Docstring filename (VInt lineno) docstring)
    end.
Proof.
  intros H serial. unfold extension._render_route in H.
  apply directive_bind_inv in H as (doc & env0 & [Hdoc ->]%lift_inv & H).
  apply directive_bind_inv in H as ([] & env1 & Hadd & H).
  apply directive_bind_inv in H as (z & env2 & Hserial & H).
  apply directive_bind_inv in H as (pattern & ? & [Hpat ->]%lift_inv & H).
  apply directive_bind_inv in H as (text & ? & [Htext ->]%lift_inv & H).
  apply directive_bind_inv in H as (methods & ? & [Hm ->]%lift_inv & H).
  apply directive_bind_inv in H as (response & ? & [Hr ->]%lift_inv & H).
  apply directive_bind_inv in H as (doc' & ? & [Hdoc' ->]%lift_inv & H).
  rewrite Hdoc in Hdoc'. injection Hdoc' as <-.
  assert (Hadd' : grows env env1 ∧ serialno env1 = serialno env ∧
            if truthy doc
            then ∃ filename h,
                   getindex doc 0 = Ok filename ∧ as_hashable filename = Ok h ∧
                   h ∈ recorded env1 (docname env)
            else env1 = env).
  { destruct (truthy doc).
    - apply pyramid_routes_add_inv in Hadd as (? & ? & ?). by split_and!.
    - injection Hadd as <-. split_and!; try done; apply grows_refl. }
  destruct Hadd' as (Hg & Hs & Hrec).
  unfold extension.new_serialno, get_env, put_env, mbind, directive_bind, mret,
    directive_ret in Hserial.
  injection Hserial as <- <-.
  change ("route" +:+ "serialno") with "routeserialno" in *.
  rewrite Hs in *. fold serial in H |- *.
  assert (Hg2 : grows env
            (mkBuildEnv (pyramid_routes env1) (docname env1)
               (<["routeserialno" := serial + 1]> (serialno env)) (wegweiser env1))).
  { eapply grows_trans; [exact Hg|].
    by split_and!. }
  assert (Hrec2 :
            if truthy doc
            then ∃ filename h,
                   getindex doc 0 = Ok filename ∧ as_hashable filename = Ok h ∧
                   h ∈ recorded
                         (mkBuildEnv (pyramid_routes env1) (docname env1)
                            (<["routeserialno" := serial + 1]> (serialno env))
                            (wegweiser env1)) (docname env)
            else pyramid_routes env1 = pyramid_routes env).
  { destruct (truthy doc); [exact Hrec|by subst env1]. }
  cbn [iadd app] in H.
  destruct doc.
  1: { unfold mret, directive_ret in H. injection H as <- <-.
       exists VNone. eexists. by split_and!. }
  all: apply lift_inv in H as [H ->];
    apply _render_docstring_inv in H as (fn & ln & ds & Hiter & ->);
    eexists _, _; split_and!;
    first [done
          |cbv beta iota; exists fn, ln, ds; split; [done|by rewrite last_snoc]].
Qed.

(** X15: when [_render_route] returns for a route with a docstring, the
    docstring content is the last child of the section, and the docstring's
    source file is then among the source files recorded for the document
    that is read, so that the document can be rebuilt when the file
    changes. *)
Theorem _render_route_records_source_file self route env n env'
    filename lineno docstring :
  getitem route "doc" = Ok (VList [VStr filename; VInt lineno; VStr docstring]) →
  extension._render_route self route env = Ok (n, env') →
  last (node_children n)
  = Some (Docstring (VStr filename) (VInt lineno) docstring) ∧
  Some (inl filename) ∈ recorded env' (docname env) ∧
  grows env env'.
Proof.
  intros Hdoc H. apply _render_route_inv in H
    as (doc & children & Hdoc' & -> & _ & Hg & Hrec & Hlast).
  rewrite Hdoc in Hdoc'. injection Hdoc' as <-.
  cbn [truthy getindex lookup list_lookup] in Hrec.
  destruct Hrec as (f & h & [= <-] & [= <-] & Hin).
  destruct Hlast as (f & l & d & [= <- <- <-] & Hlast).
  by split_and!.
Qed.

Lemma _render_route_records_source_file_witness :
  let route := json.value (VDict example.view_wiki_entry) in
  let env := mkBuildEnv (Some ∅) "index" ∅ ∅ in
  ∃ n env',
    (getitem route "doc"
     = Ok (VList [VStr example.views_py; VInt 6;
                  VStr "Redirect to the FrontPage wiki page."]) ∧
     extension._render_route (mkDirective ∅ []) route env = Ok (n, env')) ∧
    last (node_children n)
    = Some (Docstring (VStr example.views_py) (VInt 6)
              "Redirect to the FrontPage wiki page.") ∧
    Some (inl example.views_py) ∈ recorded env' (docname env) ∧
    grows env env'.
Proof.
  intros route env. eexists _, _.
  assert (H : getitem route "doc"
              = Ok (VList [VStr example.views_py; VInt 6;
                           VStr "Redirect to the FrontPage wiki page."])
              ∧ extension._render_route (mkDirective ∅ []) route env
                = Ok (Element section ["route-0"]
                        [Element title [] [Text (VStr "/")];
                         Docstring (VStr example.views_py) (VInt 6)
                           "Redirect to the FrontPage wiki page."],
                      mkBuildEnv
                        (Some (<["index" := {[Some (inl example.views_py)]} ∪ ∅]> ∅))
                        "index" (<["routeserialno" := 1]> ∅) ∅))
    by (by split).
  split; [exact H|].
  destruct H as [H1 H2].
  exact (_render_route_records_source_file _ _ _ _ _ _ _ _ H1 H2).
Defined.

End Environment.

Section Serial.

Lemma string_app_inj p a b : p +:+ a = p +:+ b → a = b.
Proof.
  induction p as [|c p IH]; [done|].
  change (String c p +:+ a) with (String c (p +:+ a)).
  change (String c p +:+ b) with (String c (p +:+ b)).
  intros [= H]. by apply IH.
Qed.

Lemma route_id_inj s i j :
  "route-" +:+ pretty (s + Z.of_nat i) = "route-" +:+ pretty (s + Z.of_nat j) →
  i = j.
Proof.
  intros H%string_app_inj. pose proof (pretty_Z_inj _ _ H) as H'.
  clear H. lia.
Qed.

Lemma _render_routes_inv self routes env ns env' :
  extension._render_routes self routes env = Ok (ns, env') →
  let s := default 0 (serialno env !! "routeserialno") in
  node_ids <$> ns
  = (λ i, ["route-" +:+ pretty (s + Z.of_nat i)]) <$> seq 0 (length routes) ∧
  default 0 (serialno env' !! "routeserialno") = s + Z.of_nat (length routes) ∧
  grows env env'.
Proof.
  revert env ns. induction routes as [|route rest IH]; intros env ns H s.
  - injection H as <- <-. subst s. cbn [length].
    split_and!; [done|lia|apply grows_refl].
  - cbn [extension._render_routes] in H.
    apply directive_bind_inv in H as (n & env1 & Hn & H).
    apply directive_bind_inv in H as (ns' & env2 & Hns & H).
    injection H as <- <-.
    apply _render_route_inv in Hn as (doc & children & _ & -> & Hs1 & Hg1 & _).
    apply IH in Hns as (Hids & Hs2 & Hg2).
    rewrite Hs1, lookup_insert_eq in Hids, Hs2. cbn [default from_option id] in *.
    fold s in Hids, Hs2.
    split_and!.
    + cbn [length seq]. rewrite !fmap_cons, Hids, <- fmap_S_seq, <- list_fmap_compose.
      f_equal; [by rewrite Z.add_0_r|].
      apply list_fmap_ext. intros _ i _. cbn. do 3 f_equal. lia.
    + rewrite Hs2. cbn [length]. lia.
    + by eapply grows_trans.
Qed.

(** X16: the sections that the default group renderer gives, one for
    every route and in their order, have identifiers with consecutive
    serial numbers, from the number that the build has reached; no two of
    them have the same identifier. *)
Theorem _default_group_renderer_ids self routes env ns env' :
  extension._default_group_renderer self (VList routes) env = Ok (ns, env') →
  let s := default 0 (serialno env !! "routeserialno") in
  length ns = length routes ∧
  node_ids <$> ns
  = (λ i, ["route-" +:+ pretty (s + Z.of_nat i)]) <$> seq 0 (length routes) ∧
  NoDup (concat (node_ids <$> ns)) ∧
  default 0 (serialno env' !! "routeserialno") = s + Z.of_nat (length routes).
Proof.
  intros H s. unfold extension._default_group_renderer in H.
  apply directive_bind_inv in H as (rs & ? & [[= <-] ->]%lift_inv & H).
  apply _render_routes_inv in H as (Hids & Hs & _). fold s in Hids, Hs.
  split_and!; try done.
  - apply (f_equal length) in Hids. by rewrite !length_fmap, length_seq in Hids.
  - rewrite Hids. clear Hids.
    assert (Hc : ∀ l : list nat,
               concat ((λ i, ["route-" +:+ pretty (s + Z.of_nat i)]) <$> l)
               = (λ i, "route-" +:+ pretty (s + Z.of_nat i)) <$> l).
    { induction l as [|i l IHl]; [done|]. cbn. by rewrite <- IHl. }
    rewrite Hc. apply NoDup_fmap_2; [|apply NoDup_seq].
    intros i j. apply route_id_inj.
Qed.

Lemma _default_group_renderer_ids_witness :
  let routes := [json.value (VDict example.undocumented_entry);
                 json.value (VDict example.view_page_entry)] in
  let env := mkBuildEnv (Some ∅) "index" {[ "routeserialno" := 7 ]} ∅ in
  ∃ ns env',
    extension._default_group_renderer (mkDirective ∅ []) (VList routes) env
    = Ok (ns, env') ∧
    node_ids <$> ns = [["route-7"]; ["route-8"]] ∧
    length ns = length routes ∧
    NoDup (concat (node_ids <$> ns)) ∧
    default 0 (serialno env' !! "routeserialno") = 9.
Proof.
  intros routes env.
  destruct (extension._default_group_renderer (mkDirective ∅ []) (VList routes) env)
    as [[ns env']|] eqn:H; [|discriminate H].
  exists ns, env'.
  destruct (_default_group_renderer_ids _ _ _ _ _ H) as (Hl & Hids & Hn & Hs).
  by split_and!.
Defined.

End Serial.

Section Grows.

Lemma _prepare_env_inv env u env' :
  extension._prepare_env env = Ok (u, env') →
  grows env env' ∧ is_Some (pyramid_routes env') ∧ serialno env' = serialno env ∧
  (is_Some (pyramid_routes env) → env' = env).
Proof.
  unfold extension._prepare_env, get_env, put_env, mbind, directive_bind, mret,
    directive_ret.
  destruct (pyramid_routes env) as [routes|] eqn:Hr.
  - intros [= <- <-]. rewrite Hr. split_and!; try done; apply grows_refl.
  - intros [= <- <-]. split_and!; try done.
    unfold grows, recorded. rewrite Hr. by split_and!.
Qed.

Lemma _get_routes_inv sys prefix group_by env routes env' :
  extension._get_routes sys prefix group_by env = Ok (routes, env') → env' = env.
Proof.
  unfold extension._get_routes, get_env, mbind, directive_bind.
  destruct (wegweiser env !! "app_config"); by intros [_ ->]%lift_inv.
Qed.

Lemma _module_group_renderer_routes_grows self routes n env n' env' :
  extension._module_group_renderer_routes self routes n env = Ok (n', env') →
  grows env env'.
Proof.
  revert n env. induction routes as [|route rest IH]; intros n env H.
  - injection H as <- <-. apply grows_refl.
  - cbn [extension._module_group_renderer_routes] in H.
    apply directive_bind_inv in H as (r & env1 & Hr & H).
    apply _render_route_inv in Hr as (? & ? & _ & _ & _ & Hg & _).
    eapply grows_trans; [exact Hg|]. by eapply IH.
Qed.

Lemma _module_group_renderer_loop_grows self items result env ns env' :
  extension._module_group_renderer_loop self items result env = Ok (ns, env') →
  grows env env'.
Proof.
  revert result env. induction items as [|[name module] rest IH]; intros result env H.
  - injection H as <- <-. apply grows_refl.
  - cbn [extension._module_group_renderer_loop] in H.
    apply directive_bind_inv in H as (doc & ? & [_ ->]%lift_inv & H).
    apply directive_bind_inv in H as (n & env1 & Hn & H).
    apply directive_bind_inv in H as (routes & ? & [_ ->]%lift_inv & H).
    apply directive_bind_inv in H as (n' & env2 & Hn' & H).
    assert (Hg1 : grows env env1).
    { destruct (truthy doc).
      - apply directive_bind_inv in Hn as (? & ? & [_ ->]%lift_inv & Hn).
        apply directive_bind_inv in Hn as ([] & ? & Hadd & Hn).
        injection Hn as <- <-. by apply pyramid_routes_add_inv in Hadd as (? & _).
      - injection Hn as <- <-. apply grows_refl. }
    eapply grows_trans; [exact Hg1|].
    eapply grows_trans; [by eapply _module_group_renderer_routes_grows|].
    by eapply IH.
Qed.

(** X17: a [pyramidroutes] directive that returns has kept the build
    environment in order: the set of recorded source files exists, every
    source file that was recorded for the document is still recorded, and
    what is recorded for the other documents is the same. *)
Theorem run_keeps_recorded_files sys self env ns env' :
  extension.run sys self env = Ok (ns, env') →
  is_Some (pyramid_routes env') ∧
  docname env' = docname env ∧
  (∀ doc, recorded env doc ⊆ recorded env' doc) ∧
  (∀ doc, doc ≠ docname env → recorded env' doc = recorded env doc).
Proof.
  intros H. unfold extension.run in H. cbv zeta in H.
  apply directive_bind_inv in H as ([] & env1 & Hp & H).
  apply directive_bind_inv in H as (routes & env2 & Hr & H).
  apply _get_routes_inv in Hr as ->.
  apply _prepare_env_inv in Hp as (Hg1 & Hsome & _ & _).
  assert (Hg2 : grows env1 env').
  { destruct (extension.group_renderer !! _) as [renderer|] eqn:Hlook; [|done].
    unfold extension.group_renderer in Hlook.
    rewrite !lookup_insert in Hlook. repeat case_decide; simplify_eq.
    - destruct routes; try done. by eapply _module_group_renderer_loop_grows.
    - unfold extension._default_group_renderer in H.
      apply directive_bind_inv in H as (rs & ? & [_ ->]%lift_inv & H).
      by apply _render_routes_inv in H as (_ & _ & ?). }
  destruct (grows_trans _ _ _ Hg1 Hg2) as (Hd & _ & _ & Hsub & Hother).
  split_and!; try done. by apply Hg2.
Qed.

Lemma run_keeps_recorded_files_witness :
  let env := mkBuildEnv (Some {[ "index" := {[ Some (inl "/old/views.py") ]} ]})
               "index" ∅ {[ "app_config" := "development.ini" ]} in
  ∃ ns env',
    extension.run (example.system example.env) (mkDirective ∅ []) env
    = Ok (ns, env') ∧
    is_Some (pyramid_routes env') ∧
    docname env' = docname env ∧
    (∀ doc, recorded env doc ⊆ recorded env' doc) ∧
    (∀ doc, doc ≠ docname env → recorded env' doc = recorded env doc).
Proof.
  intros env.
  destruct (extension.run (example.system example.env) (mkDirective ∅ []) env)
    as [[ns env']|] eqn:H; [|discriminate H].
  exists ns, env'. split; [done|].
  exact (run_keeps_recorded_files _ _ _ _ _ H).
Defined.

End Grows.

(* ===================================================================== *)
(** * The [pyramidroute] directive *)
(* ===================================================================== *)

Section SingleRoute.

Lemma routes_by_name_spec rs acc name :
  Forall (λ r, ∃ n, named_route n r) rs →
  ∃ m, extension.routes_by_name rs acc = Ok m ∧
       m !! Some (inl name)
       = match last_named name rs with
         | Some r => Some r
         | None => acc !! Some (inl name)
         end.
Proof.
  intros H. revert acc. induction H as [|r rs [n Hn] _ IH]; intros acc.
  - by exists acc.
  - cbn [extension.routes_by_name]. unfold named_route in Hn. rewrite Hn.
    unfold mbind, result_bind. cbn [as_hashable].
    destruct (IH (<[Some (inl n) := r]> acc)) as (m & Hrm & Hm).
    exists m. split; [done|]. rewrite Hm. unfold last_named.
    cbn [List.filter]. rewrite Hn.
    destruct (String.eqb n name) eqn:Heq.
    + apply String.eqb_eq in Heq as ->. rewrite last_cons.
      destruct (last _); [done|]. by rewrite lookup_insert_eq.
    + apply String.eqb_neq in Heq.
      destruct (last _); [done|]. rewrite lookup_insert_ne; [done|congruence].
Qed.

Lemma _prepare_env_returns env :
  ∃ env1, extension._prepare_env env = Ok ((), env1) ∧
          wegweiser env1 = wegweiser env.
Proof.
  unfold extension._prepare_env, get_env, put_env, mbind, directive_bind, mret,
    directive_ret.
  destruct (pyramid_routes env); by eexists.
Qed.

(** X18: the [pyramidroute] directive renders the route that has the name
    given as its argument, the last one when several routes have the name;
    when no route has the name it ends with a [KeyError] for the name, which
    is not a directive error. *)
Theorem PyramidRouteDirective_run_by_name sys self env config name rest rs :
  arguments self = name :: rest →
  wegweiser env !! "app_config" = Some config →
  extension.get_routes sys config None None = Ok (VList rs) →
  Forall (λ r, ∃ n, named_route n r) rs →
  ∃ env1,
    extension._prepare_env env = Ok ((), env1) ∧
    extension.PyramidRouteDirective_run sys self env
    = match last_named name rs with
      | None => Raise (KeyError name)
      | Some route =>
          match extension._render_route self route env1 with
          | Ok (n, env') => Ok ([n], env')
          | Raise e => Raise e
          end
      end.
Proof.
  intros Hargs Hcfg Hget Hnamed.
  destruct (_prepare_env_returns env) as (env1 & Hp & Hw).
  exists env1. split; [done|].
  unfold extension.PyramidRouteDirective_run, mbind, directive_bind.
  rewrite Hp. unfold extension._get_routes, get_env, mbind, directive_bind.
  rewrite Hw, Hcfg. unfold lift at 1. rewrite Hget.
  cbn [iter lift].
  destruct (routes_by_name_spec rs ∅ name Hnamed) as (m & -> & Hm).
  unfold lift at 1. rewrite Hargs, Hm, lookup_empty.
  destruct (last_named name rs) as [route|]; [|done].
  unfold mret, directive_ret.
  by destruct (extension._render_route self route env1) as [[n env']|].
Qed.

Lemma PyramidRouteDirective_run_by_name_witness :
  let rs := json.value <$> (VDict <$> example.collected) in
  (arguments (mkDirective ∅ ["view_wiki_page"]) = ["view_wiki_page"] ∧
   wegweiser example.build_env !! "app_config" = Some "development.ini" ∧
   extension.get_routes (example.system example.env) "development.ini" None None
   = Ok (VList rs) ∧
   Forall (λ r, ∃ n, named_route n r) rs) ∧
  extension.PyramidRouteDirective_run (example.system example.env)
    (mkDirective ∅ ["view_wiki_page"]) example.build_env
  = Raise (KeyError "view_wiki_page").
Proof.
  intros rs.
  assert (Hnamed : Forall (λ r, ∃ n, named_route n r) rs).
  { repeat constructor; by eexists. }
  split; [by split_and!|].
  destruct (PyramidRouteDirective_run_by_name (example.system example.env)
              (mkDirective ∅ ["view_wiki_page"]) example.build_env
              "development.ini" "view_wiki_page" [] rs
              eq_refl eq_refl eq_refl Hnamed) as (env1 & _ & H).
  exact H.
Defined.

End SingleRoute.

(* ===================================================================== *)
(** * Outdated documents *)
(* ===================================================================== *)

Section OutdatedDocuments.

Context {time : Type} (time_gt : time → time → bool).
Context (getmtime : hashable → result time).
Context (all_docs : gmap string time).

Lemma get_outdated_documents_files_spec document t files :
  all_docs !! document = Some t →
  Forall (λ f, is_Ok (getmtime f) = true) files →
  ∃ b, extension.get_outdated_documents_files time_gt getmtime all_docs document files
       = Ok b ∧
       (b = true ↔
        ∃ f mtime, f ∈ files ∧ getmtime f = Ok mtime ∧ time_gt mtime t = true).
Proof.
  intros Ht. induction 1 as [|f files Hf _ (b & IH & Hb)].
  - exists false. split; [done|]. split; [done|].
    intros (f & ? & Hin & _). by apply not_elem_of_nil in Hin.
  - cbn [extension.get_outdated_documents_files].
    destruct (getmtime f) as [mtime|] eqn:Hm; [|done].
    cbn [mbind result_bind]. rewrite Ht.
    destruct (time_gt mtime t) eqn:Hgt.
    + exists true. split; [done|]. split; [|done]. intros _.
      exists f, mtime. split_and!; try done. apply list_elem_of_here.
    + exists b. split; [done|]. rewrite Hb. split.
      * intros (f' & mtime' & Hin & ? & ?). exists f', mtime'.
        split_and!; try done. by apply list_elem_of_further.
      * intros (f' & mtime' & Hin & Hm' & Hgt').
        apply elem_of_cons in Hin as [->|Hin]; [congruence|].
        by exists f', mtime'.
Qed.

Lemma get_outdated_documents_loop_spec items changed0 :
  Forall (λ it, is_Some (all_docs !! fst it) ∧
                ∀ f, f ∈ snd it → is_Ok (getmtime f) = true) items →
  ∃ l, extension.get_outdated_documents_loop time_gt getmtime all_docs items changed0
       = Ok (changed0 ++ l) ∧
       l `sublist_of` (fst <$> items) ∧
       ∀ doc, doc ∈ l ↔
         ∃ files f mtime t,
           (doc, files) ∈ items ∧ f ∈ files ∧ getmtime f = Ok mtime ∧
           all_docs !! doc = Some t ∧ time_gt mtime t = true.
Proof.
  intros H. revert changed0.
  induction H as [|[document files] items [[t Ht] Hfiles] _ IH]; intros changed0.
  - exists []. rewrite app_nil_r. split_and!; try done.
    intros doc. split; [by intros Hin%not_elem_of_nil|].
    intros (? & ? & ? & ? & Hin & _). by apply not_elem_of_nil in Hin.
  - cbn [extension.get_outdated_documents_loop]. cbn [fst snd] in *.
    destruct (get_outdated_documents_files_spec document t (elements files) Ht)
      as (b & -> & Hb).
    { apply Forall_forall. intros f Hf. apply Hfiles. set_solver. }
    cbn [mbind result_bind].
    destruct (IH (if b then changed0 ++ [document] else changed0))
      as (l & -> & Hsub & Hl).
    assert (Hhead : b = true ↔
              ∃ f mtime t',
                f ∈ files ∧ getmtime f = Ok mtime ∧
                all_docs !! document = Some t' ∧ time_gt mtime t' = true).
    { rewrite Hb. split.
      - intros (f & mtime & Hf & Hm & Hgt). exists f, mtime, t.
        split_and!; try done. by apply elem_of_elements.
      - intros (f & mtime & t' & Hf & Hm & Ht' & Hgt). exists f, mtime.
        split_and!; try done; [by apply elem_of_elements|congruence]. }
    assert (Htail : ∀ doc,
              (∃ files' f mtime t',
                 (doc, files') ∈ (document, files) :: items ∧ f ∈ files' ∧
                 getmtime f = Ok mtime ∧ all_docs !! doc = Some t' ∧
                 time_gt mtime t' = true)
              ↔ (doc = document ∧ b = true) ∨ doc ∈ l).
    { intros doc. rewrite Hl, Hhead. split.
      - intros (files' & f & mtime & t' & Hin & Hrest).
        apply elem_of_cons in Hin as [[= -> ->]|Hin].
        + left. split; [done|]. by exists f, mtime, t'.
        + right. by exists files', f, mtime, t'.
      - intros [[-> (f & mtime & t' & Hrest)]|(files' & f & mtime & t' & Hin & Hrest)].
        + exists files, f, mtime, t'. split; [apply list_elem_of_here|done].
        + exists files', f, mtime, t'. split; [by apply list_elem_of_further|done]. }
    destruct b.
    + exists (document :: l). rewrite <- app_assoc. split_and!; try done.
      * rewrite fmap_cons. by apply sublist_skip.
      * intros doc. rewrite Htail, elem_of_cons. clear. intuition.
    + exists l. split_and!; try done.
      * rewrite fmap_cons. by apply sublist_cons.
      * intros doc. rewrite Htail. clear. intuition congruence.
Qed.

End OutdatedDocuments.

Section OutdatedResult.

Context {time : Type} (time_gt : time → time → bool).
Context (getmtime : hashable → result time).
Context (all_docs : gmap string time).

Lemma get_outdated_documents_files_raises document files :
  files ≠ [] →
  Forall (λ f, is_Ok (getmtime f) = false) files →
  is_Ok (extension.get_outdated_documents_files time_gt getmtime all_docs
           document files) = false.
Proof.
  intros Hne Hall. destruct Hall as [|f files Hf _]; [done|].
  cbn [extension.get_outdated_documents_files].
  by destruct (getmtime f).
Qed.

Lemma get_outdated_documents_loop_raises items changed0 document files :
  (document, files) ∈ items →
  files ≠ ∅ →
  (∀ f, f ∈ files → is_Ok (getmtime f) = false) →
  is_Ok (extension.get_outdated_documents_loop time_gt getmtime all_docs items
           changed0) = false.
Proof.
  intros Hin Hne Hall. revert changed0.
  induction items as [|[document' files'] items IH]; intros changed0.
  - by apply not_elem_of_nil in Hin.
  - cbn [extension.get_outdated_documents_loop].
    destruct (extension.get_outdated_documents_files _ _ _ _ _) as [b|] eqn:Hb;
      [|done].
    cbn [mbind result_bind].
    apply elem_of_cons in Hin as [[= <- <-]|Hin]; [|by apply IH].
    assert (Hraise : is_Ok (extension.get_outdated_documents_files time_gt
                              getmtime all_docs document (elements files))
                     = false).
    { apply get_outdated_documents_files_raises.
      - intros Hnil. apply Hne. apply elements_empty_inv in Hnil.
        by apply leibniz_equiv.
      - apply Forall_forall. intros f Hf. apply Hall. set_solver. }
    by rewrite Hb in Hraise.
Qed.

Lemma get_outdated_documents_loop_sublist items changed0 r :
  extension.get_outdated_documents_loop time_gt getmtime all_docs items changed0
  = Ok r →
  ∃ l, r = changed0 ++ l ∧ l `sublist_of` (fst <$> items).
Proof.
  revert changed0. induction items as [|[document files] items IH]; intros changed0.
  - intros [= <-]. exists []. by rewrite app_nil_r.
  - cbn [extension.get_outdated_documents_loop].
    destruct (extension.get_outdated_documents_files _ _ _ _ _) as [b|]; [|done].
    cbn [mbind result_bind]. intros (l & -> & Hl)%IH.
    rewrite fmap_cons. destruct b.
    + exists (document :: l). rewrite <- app_assoc. split; [done|].
      by apply sublist_skip.
    + exists l. split; [done|]. by apply sublist_cons.
Qed.

(** X19: when the modification time of every recorded source file can be
    read and every document with recorded files is a known document, the
    outdated documents are exactly those for which a recorded source file is
    newer than the document was when it was last read; none is reported
    twice, and the lists of added, changed and removed documents that are
    passed in play no role. *)
Theorem get_outdated_documents_newer_source env routes added changed removed :
  pyramid_routes env = Some routes →
  (∀ doc files, routes !! doc = Some files →
     is_Some (all_docs !! doc) ∧ ∀ f, f ∈ files → is_Ok (getmtime f) = true) →
  ∃ l,
    extension.get_outdated_documents time_gt getmtime env all_docs
      added changed removed = Ok l ∧
    NoDup l ∧
    ∀ doc, doc ∈ l ↔
      ∃ f mtime t,
        f ∈ recorded env doc ∧ getmtime f = Ok mtime ∧
        all_docs !! doc = Some t ∧ time_gt mtime t = true.
Proof.
  intros Hr Hall. unfold extension.get_outdated_documents. rewrite Hr.
  destruct (get_outdated_documents_loop_spec time_gt getmtime all_docs
              (map_to_list routes) []) as (l & Hl & Hsub & Hmem).
  { apply Forall_forall. intros [doc files] Hin.
    apply elem_of_map_to_list in Hin. by apply Hall. }
  exists l. split; [done|]. split.
  - eapply sublist_NoDup; [|exact Hsub]. apply NoDup_fst_map_to_list.
  - intros doc. rewrite Hmem. unfold recorded. rewrite Hr. cbn [mbind option_bind].
    split.
    + intros (files & f & mtime & t & Hin & Hf & Hrest).
      apply elem_of_map_to_list in Hin. rewrite Hin. by exists f, mtime, t.
    + intros (f & mtime & t & Hf & Hrest).
      destruct (routes !! doc) as [files|] eqn:Hlook; [|set_solver].
      exists files, f, mtime, t. split; [|done]. by apply elem_of_map_to_list.
Qed.

(** X20: when the modification time of none of the source files recorded
    for some document can be read (the files were removed, say), the search
    for outdated documents ends with an exception and reports no
    document. *)
Theorem get_outdated_documents_unreadable_source env routes doc files
  added changed removed :
  pyramid_routes env = Some routes →
  routes !! doc = Some files →
  files ≠ ∅ →
  (∀ f, f ∈ files → is_Ok (getmtime f) = false) →
  is_Ok (extension.get_outdated_documents time_gt getmtime env all_docs
           added changed removed) = false.
Proof.
  intros Hr Hlook Hne Hall. unfold extension.get_outdated_documents. rewrite Hr.
  eapply get_outdated_documents_loop_raises; [|exact Hne|exact Hall].
  by apply elem_of_map_to_list.
Qed.

(** X21: a document that was purged is not reported as outdated, whatever
    the source files and the other documents are. *)
Theorem purged_document_not_outdated env docname' added changed removed l :
  extension.get_outdated_documents time_gt getmtime
    (extension.purge_pyramid_routes env docname') all_docs added changed removed
  = Ok l →
  docname' ∉ l.
Proof.
  unfold extension.get_outdated_documents, extension.purge_pyramid_routes.
  destruct (pyramid_routes env) as [routes|] eqn:Hr.
  - destruct (routes !! docname') as [files|] eqn:Hlook.
    + cbn [pyramid_routes].
      intros (l' & -> & Hsub)%get_outdated_documents_loop_sublist Hin.
      rewrite app_nil_l in Hin. eapply elem_of_submseteq in Hin; [|by apply sublist_submseteq].
      apply list_elem_of_fmap in Hin as ([doc files'] & -> & Hin).
      apply elem_of_map_to_list in Hin. cbn [fst] in Hin.
      by rewrite lookup_delete_eq in Hin.
    + rewrite Hr.
      intros (l' & -> & Hsub)%get_outdated_documents_loop_sublist Hin.
      rewrite app_nil_l in Hin. eapply elem_of_submseteq in Hin; [|by apply sublist_submseteq].
      apply list_elem_of_fmap in Hin as ([doc files'] & -> & Hin).
      apply elem_of_map_to_list in Hin. cbn [fst] in Hlook. congruence.
  - rewrite Hr. intros [= <-]. apply not_elem_of_nil.
Qed.

End OutdatedResult.

Lemma get_outdated_documents_newer_source_witness :
  let views := Some (inl "/app/example/views.py") : hashable in
  let routes : gmap string (gset hashable) :=
    {[ "index" := {[ views ]}; "api" := {[ views ]} ]} in
  let env := mkBuildEnv (Some routes) "index" ∅ ∅ in
  let all_docs : gmap string Z := {[ "index" := 3; "api" := 9 ]} in
  let getmtime := λ _ : hashable, Ok 5 in
  ∃ l,
    extension.get_outdated_documents Z.gtb getmtime env all_docs [] ["api"] []
    = Ok l ∧
    NoDup l ∧
    ∀ doc, doc ∈ l ↔
      ∃ f mtime t,
        f ∈ recorded env doc ∧ getmtime f = Ok mtime ∧
        all_docs !! doc = Some t ∧ Z.gtb mtime t = true.
Proof.
  intros views routes env all_docs getmtime.
  apply (get_outdated_documents_newer_source Z.gtb getmtime all_docs env routes
           [] ["api"] [] eq_refl).
  intros doc files Hlook. split; [|done].
  unfold routes in Hlook. apply lookup_insert_Some in Hlook as [[<- _]|[_ Hlook]].
  - by eexists.
  - apply lookup_singleton_Some in Hlook as [<- _]. by eexists.
Defined.

Lemma get_outdated_documents_unreadable_source_witness :
  let views := Some (inl "/app/example/views.py") : hashable in
  let routes : gmap string (gset hashable) := {[ "index" := {[ views ]} ]} in
  let env := mkBuildEnv (Some routes) "index" ∅ ∅ in
  let all_docs : gmap string Z := {[ "index" := 3 ]} in
  let getmtime := λ _ : hashable, Raise OSError : result Z in
  (pyramid_routes env = Some routes ∧ routes !! "index" = Some {[ views ]}) ∧
  is_Ok (extension.get_outdated_documents Z.gtb getmtime env all_docs [] [] [])
  = false.
Proof.
  intros views routes env all_docs getmtime. split; [done|].
  apply (get_outdated_documents_unreadable_source Z.gtb getmtime all_docs env
           routes "index" {[ views ]} [] [] [] eq_refl eq_refl); [|done].
  apply (non_empty_inhabited_L views). by apply elem_of_singleton.
Defined.

Lemma purged_document_not_outdated_witness :
  let views := Some (inl "/app/example/views.py") : hashable in
  let routes : gmap string (gset hashable) :=
    {[ "index" := {[ views ]}; "api" := {[ views ]} ]} in
  let env := mkBuildEnv (Some routes) "index" ∅ ∅ in
  let all_docs : gmap string Z := {[ "index" := 3; "api" := 3 ]} in
  let getmtime := λ _ : hashable, Ok 5 in
  extension.get_outdated_documents Z.gtb getmtime
    (extension.purge_pyramid_routes env "index") all_docs [] [] []
  = Ok ["api"] ∧
  "index" ∉ ["api"].
Proof.
  intros views routes env all_docs getmtime.
  assert (H : extension.get_outdated_documents Z.gtb getmtime
                (extension.purge_pyramid_routes env "index") all_docs [] [] []
              = Ok ["api"]) by reflexivity.
  split; [exact H|].
  exact (purged_document_not_outdated Z.gtb getmtime all_docs env "index"
           [] [] [] ["api"] H).
Defined.

(* ===================================================================== *)
(** * Purging a document *)
(* ===================================================================== *)

Section Purge.

(** X22: purging a document removes the source files recorded for it and
    nothing else: the files of the other documents, the name of the current
    document, the serial numbers and the configuration stay, and purging a
    second time changes nothing. *)
Theorem purge_pyramid_routes_forgets_document env docname' :
  let env' := extension.purge_pyramid_routes env docname' in
  recorded env' docname' = ∅ ∧
  (∀ doc, doc ≠ docname' → recorded env' doc = recorded env doc) ∧
  docname env' = docname env ∧
  serialno env' = serialno env ∧
  wegweiser env' = wegweiser env ∧
  extension.purge_pyramid_routes env' docname' = env'.
Proof.
  unfold extension.purge_pyramid_routes, recorded.
  destruct (pyramid_routes env) as [routes|] eqn:Hr.
  - destruct (routes !! docname') as [files|] eqn:Hlook.
    + cbn [pyramid_routes docname serialno wegweiser mbind option_bind].
      rewrite !lookup_delete_eq. split_and!; try done.
      intros doc Hne. by rewrite lookup_delete_ne.
    + rewrite Hr. cbn [mbind option_bind]. rewrite Hlook. by split_and!.
  - rewrite Hr. by split_and!.
Qed.

End Purge.

(* ===================================================================== *)
(** * Sections of the module group renderer *)
(* ===================================================================== *)

Section ModuleSections.

Lemma _module_group_renderer_routes_inv self routes kind ids children env n' env' :
  extension._module_group_renderer_routes self routes (Element kind ids children) env
  = Ok (n', env') →
  ∃ children', n' = Element kind ids (children ++ children') ∧
               length children' = length routes.
Proof.
  revert children env. induction routes as [|route rest IH]; intros children env H.
  - injection H as <- <-. exists []. by rewrite app_nil_r.
  - cbn [extension._module_group_renderer_routes] in H.
    apply directive_bind_inv in H as (r & env1 & _ & H).
    cbn [iadd] in H. apply IH in H as (children' & -> & Hlen).
    exists (r :: children'). rewrite <- app_assoc. split; [done|].
    cbn [length]. by rewrite Hlen.
Qed.

Lemma _module_group_renderer_loop_inv self items result env ns env' :
  extension._module_group_renderer_loop self items result env = Ok (ns, env') →
  ∃ ns', ns = result ++ ns' ∧
         Forall2 (λ it n, ∃ children, n = module_section (fst it) children)
           items ns'.
Proof.
  revert result env. induction items as [|[name module] rest IH]; intros result env H.
  - injection H as <- <-. exists []. by rewrite app_nil_r.
  - cbn [extension._module_group_renderer_loop] in H. cbn [iadd app] in H.
    apply directive_bind_inv in H as (doc & ? & [_ ->]%lift_inv & H).
    apply directive_bind_inv in H as (n & env1 & Hn & H).
    apply directive_bind_inv in H as (routes & ? & [_ ->]%lift_inv & H).
    apply directive_bind_inv in H as (n' & env2 & Hn' & H).
    assert (Hshape : ∃ children, n = module_section name children).
    { destruct (truthy doc).
      - apply directive_bind_inv in Hn as (n0 & ? & [Hd ->]%lift_inv & Hn).
        apply directive_bind_inv in Hn as ([] & ? & _ & Hn).
        injection Hn as <- <-.
        apply _render_docstring_inv in Hd as (? & ? & ? & _ & ->). by eexists.
      - injection Hn as <- <-. by eexists. }
    destruct Hshape as (children & ->). unfold module_section in Hn'.
    apply _module_group_renderer_routes_inv in Hn' as (children' & -> & _).
    apply IH in H as (ns' & -> & Hns').
    eexists (_ :: ns'). rewrite <- app_assoc. split; [done|].
    constructor; [|done]. cbn [fst]. unfold module_section.
    exists (children ++ children'). by rewrite app_comm_cons.
Qed.

(** X23: the module group renderer gives one section for every module of
    the grouped routes: the section of a module has the identifier
    module-<name> and the name as its title, and no two sections
    have the same identifier. *)
Theorem _module_group_renderer_sections self d env ns env' :
  extension._module_group_renderer self (VDict d) env = Ok (ns, env') →
  length ns = size d ∧
  (∀ name, is_Some (d !! name) ↔ ∃ children, module_section name children ∈ ns) ∧
  NoDup (concat (node_ids <$> ns)).
Proof.
  intros H. cbn [extension._module_group_renderer] in H.
  apply _module_group_renderer_loop_inv in H as (ns' & -> & Hns).
  rewrite app_nil_l.
  assert (Hids : concat (node_ids <$> ns')
                 = (λ name, "module-" +:+ name) <$> (fst <$> map_to_list d)).
  { induction Hns as [|it n items ns' (children & ->) _ IH]; [done|].
    rewrite !fmap_cons. cbn [concat node_ids module_section app]. by rewrite IH. }
  split_and!.
  - apply Forall2_length in Hns. by rewrite <- Hns, length_map_to_list.
  - intros name. split.
    + intros [module Hlook]. apply elem_of_map_to_list in Hlook.
      eapply list_elem_of_lookup_1 in Hlook as [i Hi].
      destruct (Forall2_lookup_l _ _ _ _ _ Hns Hi) as (n & Hn & children & ->).
      exists children. by eapply list_elem_of_lookup_2.
    + intros (children & Hin). apply list_elem_of_lookup_1 in Hin as [i Hi].
      destruct (Forall2_lookup_r _ _ _ _ _ Hns Hi)
        as ([name' module] & Hit & children' & Heq).
      injection Heq as Hname%string_app_inj _. cbn [fst] in Hname. subst name'.
      exists module. apply elem_of_map_to_list. by eapply list_elem_of_lookup_2.
  - rewrite Hids.
    apply NoDup_fmap_2; [|apply NoDup_fst_map_to_list].
    intros a b. apply string_app_inj.
Qed.

Lemma _module_group_renderer_sections_witness :
  let d := json.value <$> example_modules.grouped in
  let env := mkBuildEnv (Some ∅) "index" ∅ ∅ in
  ∃ ns env',
    extension._module_group_renderer (mkDirective ∅ []) (VDict d) env
    = Ok (ns, env') ∧
    length ns = size d ∧
    (∀ name, is_Some (d !! name) ↔ ∃ children, module_section name children ∈ ns) ∧
    NoDup (concat (node_ids <$> ns)).
Proof.
  intros d env.
  assert (Hl : map_to_list d
               = [("example.views",
                   json.value (module_group VNone example.collected))])
    by (vm_compute; reflexivity).
  destruct (extension._module_group_renderer (mkDirective ∅ []) (VDict d) env)
    as [[ns env']|] eqn:H;
    [|cbn [extension._module_group_renderer] in H; rewrite Hl in H; discriminate H].
  exists ns, env'. split; [done|].
  exact (_module_group_renderer_sections _ _ _ _ _ H).
Defined.

End ModuleSections.
